(** * Verification of the build factory of the models layer

    The development embeds [lib/buildFactory.js] (the build orchestrator)
    and the change-tracked record exercised by [test/lib/base.test.js].

    JavaScript data is modelled as a small JSON-like value type; parameter
    objects ([config], [modelConfig], the fields of a record) are finite
    maps from property names to values; asynchronous code is a writer
    monad over the trace of collaborator calls, whose result is a settled
    promise (resolved or rejected). *)

From Stdlib Require Import ZArith List String Ascii Lia Bool.
From Stdlib Require Import DecimalString Sorting.Sorted Sorting.Permutation.
From stdpp Require Import gmap strings list fin_maps.

Local Set Warnings "-register-all".
Local Open Scope string_scope.
Local Open Scope Z_scope.

(** ** JavaScript values *)

Module JS.

(** JSON-like data.  Numbers are the integer-valued ones (timestamps,
    counters); objects keep their properties in insertion order. *)
Inductive value : Type :=
| VUndefined
| VNull
| VBool (b : bool)
| VNum (n : Z)
| VStr (s : string)
| VArr (elems : list value)
| VObj (props : list (string * value)).

(** What a [throw] carries: [new Error(message)], the engine's
    [TypeError] (its message is engine specific and not modelled), or a
    failure raised by a collaborator, forwarded as it is. *)
Inductive error : Type :=
| Error (message : string)
| TypeError
| Upstream (payload : value).

(** ToBoolean *)
Definition truthy (v : value) : bool :=
  match v with
  | VUndefined | VNull => false
  | VBool b => b
  | VNum n => negb (Z.eqb n 0)
  | VStr s => negb (String.eqb s "")
  | VArr _ | VObj _ => true
  end.

(** Number::toString for an integer below 10^21 in magnitude (every time
    value is): the plain decimal digits, with a leading minus sign. *)
Definition number_toString (n : Z) : string :=
  NilZero.string_of_int (Z.to_int n).

Definition nat_toString (i : nat) : string := number_toString (Z.of_nat i).

Fixpoint join (sep : string) (l : list string) : string :=
  match l with
  | [] => ""
  | [s] => s
  | s :: rest => s +:+ sep +:+ join sep rest
  end.

(** ToString, as a template literal applies it. *)
Fixpoint toString (v : value) : string :=
  match v with
  | VUndefined => "undefined"
  | VNull => "null"
  | VBool true => "true"
  | VBool false => "false"
  | VNum n => number_toString n
  | VStr s => s
  | VArr elems =>
      join "," (List.map (fun e => match e with
                                   | VUndefined | VNull => ""
                                   | _ => toString e
                                   end) elems)
  | VObj _ => "[object Object]"
  end.

(** String.prototype.split with a one-character separator. *)
Fixpoint split (sep : ascii) (s : string) : list string :=
  match s with
  | EmptyString => [""]
  | String c rest =>
      if Ascii.eqb c sep then "" :: split sep rest
      else match split sep rest with
           | piece :: pieces => String c piece :: pieces
           | [] => [String c ""]
           end
  end.

Fixpoint assoc (key : string) (props : list (string * value)) : option value :=
  match props with
  | [] => None
  | (k, v) :: rest => if String.eqb k key then Some v else assoc key rest
  end.

(** An array index is the canonical decimal string of a position. *)
Definition array_index (elems : list value) (key : string) : option nat :=
  List.find (fun i => String.eqb (nat_toString i) key) (seq 0 (length elems)).

Fixpoint chars (s : string) : list value :=
  match s with
  | EmptyString => []
  | String c rest => VStr (String c "") :: chars rest
  end.

(** Reading [v[key]] for a data property.  [undefined] and [null] have no
    properties: the access throws.  Arrays and strings answer their
    indices and [length]; an object answers its own properties; every
    other read is [undefined]. *)
Definition get (v : value) (key : string) : error + value :=
  match v with
  | VUndefined | VNull => inl TypeError
  | VBool _ | VNum _ => inr VUndefined
  | VStr s =>
      if String.eqb key "length" then inr (VNum (Z.of_nat (String.length s)))
      else match array_index (chars s) key with
           | Some i => inr (nth i (chars s) VUndefined)
           | None => inr VUndefined
           end
  | VArr elems =>
      if String.eqb key "length" then inr (VNum (Z.of_nat (length elems)))
      else match array_index elems key with
           | Some i => inr (nth i elems VUndefined)
           | None => inr VUndefined
           end
  | VObj props =>
      match assoc key props with
      | Some x => inr x
      | None => inr VUndefined
      end
  end.

End JS.
Export JS.

(** A parameter object: property name to value; a missing property reads
    as [undefined]. *)
Definition prop (o : gmap string value) (key : string) : value :=
  default VUndefined (o !! key).


(** ** Date.prototype.toISOString, for a time value *)

Module Date.

Definition msPerDay : Z := 86400000.

(** Proleptic Gregorian date (year, month, day) of a day number counted
    from 1970-01-01. *)
Definition civil (day : Z) : Z * Z * Z :=
  let z := day + 719468 in
  let era := z / 146097 in
  let doe := z - era * 146097 in
  let yoe := (doe - doe / 1460 + doe / 36524 - doe / 146096) / 365 in
  let doy := doe - (365 * yoe + yoe / 4 - yoe / 100) in
  let mp := (5 * doy + 2) / 153 in
  let d := doy - (153 * mp + 2) / 5 + 1 in
  let m := if mp <? 10 then mp + 3 else mp - 9 in
  let y := yoe + era * 400 + (if m <=? 2 then 1 else 0) in
  (y, m, d).

Fixpoint zeros (n : nat) : string :=
  match n with
  | O => ""
  | S k => String "0" (zeros k)
  end.

Definition pad (width : nat) (n : Z) : string :=
  let digits := number_toString (Z.abs n) in
  zeros (width - String.length digits) +:+ digits.

(** Four digits for the years 0 to 9999, a sign and six digits otherwise. *)
Definition year_toString (y : Z) : string :=
  if (0 <=? y) && (y <=? 9999) then pad 4 y
  else (if y <? 0 then "-" else "+") +:+ pad 6 y.

Definition toISOString (t : Z) : string :=
  let '(y, m, d) := civil (t / msPerDay) in
  let ms := t mod msPerDay in
  year_toString y +:+ "-" +:+ pad 2 m +:+ "-" +:+ pad 2 d +:+ "T" +:+
  pad 2 (ms / 3600000) +:+ ":" +:+ pad 2 (ms / 60000 mod 60) +:+ ":" +:+
  pad 2 (ms / 1000 mod 60) +:+ "." +:+ pad 3 (ms mod 1000) +:+ "Z".

End Date.

(** ** Promises and the trace of collaborator calls *)

Inductive outcome (A : Type) : Type :=
| Resolved (a : A)
| Rejected (e : error).
Arguments Resolved {A} a.
Arguments Rejected {A} e.

(** A settled asynchronous computation: the collaborator calls it made, in
    order, and how it settled. *)
Definition promise (E A : Type) : Type := list E * outcome A.

Definition resolve {E A} (a : A) : promise E A := ([], Resolved a).
Definition reject {E A} (e : error) : promise E A := ([], Rejected e).

(** A call to a collaborator, recorded in the trace. *)
Definition call {E A} (ev : E) (answer : outcome A) : promise E A := ([ev], answer).

(** [p.then(f)]: a rejection skips [f]. *)
Definition andThen {E A B} (p : promise E A) (f : A -> promise E B) : promise E B :=
  match p with
  | (t, Resolved a) => let '(t', r) := f a in ((t ++ t')%list, r)
  | (t, Rejected e) => (t, Rejected e)
  end.

(** A callback that throws rejects the promise of its [then]. *)
Definition settle {E A} (r : error + A) : promise E A :=
  match r with
  | inl e => reject e
  | inr a => resolve a
  end.

(** [Promise.all([p, q])]: both operands were started; the result rejects
    with the rejection that happened first ([q_first] says that the second
    operand settled before the first). *)
Definition Promise_all {E A B} (q_first : bool) (p : promise E A) (q : promise E B)
  : promise E (A * B) :=
  let '(tp, rp) := p in
  let '(tq, rq) := q in
  ((tp ++ tq)%list,
   match rp, rq with
   | Resolved a, Resolved b => Resolved (a, b)
   | Rejected e, Resolved _ => Rejected e
   | Resolved _, Rejected e => Rejected e
   | Rejected ep, Rejected eq => Rejected (if q_first then eq else ep)
   end).

Notation "'let*' x ':=' p 'in' k" := (andThen p (fun x => k))
  (at level 10, x pattern, p at level 100, k at level 200).

(** Synchronous code that may throw. *)
Definition bindE {A B} (r : error + A) (f : A -> error + B) : error + B :=
  match r with
  | inl e => inl e
  | inr a => f a
  end.

Notation "'let!' x ':=' r 'in' k" := (bindE r (fun x => k))
  (at level 10, x pattern, r at level 100, k at level 200).

(** Array.prototype.map with a callback that may throw; the receiver has
    the method only if it is an array. *)
Fixpoint mapE (f : value -> error + value) (l : list value) : error + list value :=
  match l with
  | [] => inr []
  | x :: rest =>
      let! y := f x in
      let! ys := mapE f rest in
      inr (y :: ys)
  end.

Definition Array_map (f : value -> error + value) (receiver : value) : error + list value :=
  match receiver with
  | VArr elems => mapE f elems
  | _ => inl TypeError
  end.

(** Array.prototype.sort with a comparator: a stable insertion sort.  An
    element goes before the first one it compares lower than or equal to. *)
Section Sort.
Context {A : Type} (compareFn : A -> A -> Z).

Fixpoint sort_insert (x : A) (sorted : list A) : list A :=
  match sorted with
  | [] => [x]
  | y :: rest =>
      if compareFn x y <=? 0 then x :: y :: rest
      else y :: sort_insert x rest
  end.

Fixpoint Array_sort (l : list A) : list A :=
  match l with
  | [] => []
  | x :: rest => sort_insert x (Array_sort rest)
  end.

(** [x] may stand before [y]. *)
Definition in_order (x y : A) : Prop := compareFn x y <= 0.
End Sort.

(** hoek.applyToDefaults(defaults, options): a copy of [defaults] in which
    every option that is neither [null] nor [undefined] replaces the
    default.  (hoek merges an object-valued option into the default
    recursively; the options passed here are strings and a number.) *)
Definition applyToDefaults (defaults : gmap string value) (options : list (string * value))
  : gmap string value :=
  fold_left (fun acc '(k, v) =>
               match v with
               | VUndefined | VNull => acc
               | _ => <[k := v]> acc
               end) options defaults.

(** ** lib/buildFactory.js *)

(** The records the orchestrator receives from its collaborators. *)
Record PipelineModel := { scmUrl : value }.

(** [job.pipeline] is a promise of the pipeline, or of nothing. *)
Record JobModel := {
  permutations : value;
  pipeline : outcome (option PipelineModel)
}.

Record UserModel := { unsealToken : outcome value }.

Record BuildModel := {
  build_id : value;
  number : Z;
  start : outcome value
}.

Record listConfig := {
  params_jobId : value;
  paginate_count : Z;
  paginate_page : Z
}.

(** The collaborator calls of the build factory. *)
Inductive event : Type :=
| JobFactoryGet (jobId : value)
| UserFactoryGet (username : value)
| UnsealToken
| ScmGetCommitSha (scmUrl token : value)
| BaseFactoryCreate (modelConfig : gmap string value)
| BuildStart
| BaseFactoryList (config : listConfig).

(** What the environment answers: the clock, the sibling factories (whose
    [getInstance()] throws when they were never configured), the source
    control plugin of this factory, and the base factory's [create] and
    [list]. *)
Record world := {
  Date_now : Z;
  JobFactory_getInstance : error + (value -> outcome (option JobModel));
  UserFactory_getInstance : error + (value -> outcome (option UserModel));
  pipeline_settles_first : bool;
  scmPlugin_getCommitSha : value -> value -> outcome value;
  BaseFactory_create : gmap string value -> outcome BuildModel;
  BaseFactory_list : listConfig -> outcome (list BuildModel)
}.

(** [getCommitSha(config)], lines 19-52.  Its only caller runs it inside a
    [then] callback, so a throw of [UserFactory.getInstance()] is a
    rejection. *)
Definition getCommitSha (w : world) (job : JobModel) (modelConfig : gmap string value)
  : promise event value :=
  if truthy (prop modelConfig "sha") then resolve (prop modelConfig "sha")
  else
    match UserFactory_getInstance w with
    | inl e => reject e
    | inr userFactory_get =>
        let username := prop modelConfig "username" in
        let* (user, pipeline) :=
          Promise_all (pipeline_settles_first w)
            (call (UserFactoryGet username) (userFactory_get username))
            ([], pipeline job) in
        match user with
        | None => reject (Error "User does not exist")
        | Some user =>
            match pipeline with
            | None => reject (Error "Pipeline does not exist")
            | Some pipeline =>
                let* token := call UnsealToken (unsealToken user) in
                call (ScmGetCommitSha (scmUrl pipeline) token)
                     (scmPlugin_getCommitSha w (scmUrl pipeline) token)
            end
        end
    end.

(** [digits.split('.')[1] || 0] *)
Definition fraction_or_zero (digits : string) : value :=
  match nth_error (split "." digits) 1 with
  | Some fraction => if truthy (VStr fraction) then VStr fraction else VNum 0
  | None => VNum 0
  end.

(** [number.toString().split('.')[1] || 0], line 130. *)
Definition permutation_index (number : Z) : value :=
  fraction_or_zero (number_toString number).

Definition step (name : value) : value := VObj [("name", name)].

Definition step_name (s : value) : error + value := get s "name".

(** The callback of lines 135-137. *)
Definition step_of (command : value) : error + value :=
  let! name := get command "name" in
  inr (step name).

(** The callback of lines 128-142, up to the call of [super.create]: the
    model configuration handed to the base factory, or the error thrown. *)
Definition assemble (number : Z) (job : JobModel) (modelConfig : gmap string value)
  (sha : value) : error + gmap string value :=
  let index := permutation_index number in
  let! permutation := get (permutations job) (toString index) in
  let modelConfig := <["sha" := sha]> modelConfig in
  let! image := get permutation "image" in
  let modelConfig := <["container" := image]> modelConfig in
  let! commands := get permutation "commands" in
  let! steps := Array_map step_of commands in
  let steps := (step (VStr "sd-setup") :: steps ++ [step (VStr "sd-teardown")])%list in
  inr (<["steps" := VArr steps]> modelConfig).

(** The model configuration of lines 105-112. *)
Definition initial_modelConfig (number : Z) (config : gmap string value)
  : gmap string value :=
  let createTime := Date.toISOString number in
  applyToDefaults config
    [("cause", VStr ("Started by user " +:+ toString (prop config "username")));
     ("createTime", VStr createTime);
     ("number", VNum number);
     ("status", VStr "QUEUED")].

(** [create(config)], lines 104-145: [inl] is a synchronous throw, [inr]
    the returned promise. *)
Definition create (w : world) (config : gmap string value)
  : error + promise event value :=
  let number := Date_now w in
  let modelConfig := initial_modelConfig number config in
  match JobFactory_getInstance w with
  | inl e => inl e
  | inr factory_get =>
      inr (let* job := call (JobFactoryGet (prop config "jobId"))
                            (factory_get (prop config "jobId")) in
           match job with
           | None => reject (Error "Job does not exist")
           | Some job =>
               let* build :=
                 (let* sha := getCommitSha w job modelConfig in
                  let* modelConfig := settle (assemble number job modelConfig sha) in
                  call (BaseFactoryCreate modelConfig) (BaseFactory_create w modelConfig)) in
               call BuildStart (start build)
           end)
  end.

(** The comparator of line 166. *)
Definition by_number (build1 build2 : BuildModel) : Z := number build1 - number build2.

(** The list configuration of lines 155-163. *)
Definition listConfig_for (config : gmap string value) : listConfig :=
  {| params_jobId := prop config "jobId";
     paginate_count := 25;
     paginate_page := 1 |}.

(** [getBuildsForJobId(config)], lines 154-167. *)
Definition getBuildsForJobId (w : world) (config : gmap string value)
  : promise event (list BuildModel) :=
  let listConfig := listConfig_for config in
  let* records := call (BaseFactoryList listConfig) (BaseFactory_list w listConfig) in
  resolve (Array_sort by_number records).

(** *** The singleton *)

(** The fields of a [BuildFactory]. *)
Record BuildFactory := {
  table : string;
  datastore : value;
  scmPlugin : value;
  executor : value;
  uiUri : value;
  apiUri : value;
  tokenGen : value
}.

(** [new BuildFactory(config)]: the constructor of lines 63-69 sets
    [executor], [uiUri], [apiUri] and [tokenGen]; the base constructor
    (lib/baseFactory.js, not among the sources) keeps the entity kind, the
    datastore and the source control plugin of the configuration. *)
Definition new_BuildFactory (config : gmap string value) : BuildFactory :=
  {| table := "build";
     datastore := prop config "datastore";
     scmPlugin := prop config "scmPlugin";
     executor := prop config "executor";
     uiUri := prop config "uiUri";
     apiUri := VNull;
     tokenGen := VNull |}.

Section Singleton.
(** What the base factory itself demands of a first configuration:
    [Some e] is the configuration error it throws. *)
Variable base_requires : option (gmap string value) -> option error.

(** Modelled from the spec: [BaseFactory.getInstance(ClassDef, instance,
    config)] of lib/baseFactory.js, which is not among the sources.  An
    existing instance is returned and [config] ignored; otherwise the
    configuration must be complete, and the instance is constructed. *)
Definition BaseFactory_getInstance (instance : option BuildFactory)
  (config : option (gmap string value)) : error + BuildFactory :=
  match instance with
  | Some existing => inr existing
  | None =>
      match base_requires config, config with
      | Some e, _ => inl e
      | None, None => inl TypeError
      | None, Some c => inr (new_BuildFactory c)
      end
  end.

(** [!config || !config[key]] *)
Definition lacks (config : option (gmap string value)) (key : string) : bool :=
  match config with
  | None => true
  | Some c => negb (truthy (prop c key))
  end.

Definition absent (instance : option BuildFactory) : bool :=
  match instance with
  | None => true
  | Some _ => false
  end.

(** [BuildFactory.getInstance(config)], lines 178-192, as a transition of
    the module variable [instance]: the result (or the error thrown) and
    the new value of the variable. *)
Definition getInstance (config : option (gmap string value))
  (instance : option BuildFactory) : (error + BuildFactory) * option BuildFactory :=
  if absent instance && lacks config "executor"
  then (inl (Error "No executor provided to BuildFactory"), instance)
  else if absent instance && lacks config "uiUri"
  then (inl (Error "No uiUri provided to BuildFactory"), instance)
  else if absent instance && lacks config "scmPlugin"
  then (inl (Error "No scm plugin provided to BuildFactory"), instance)
  else
    match BaseFactory_getInstance instance config with
    | inl e => (inl e, instance)
    | inr created => (inr created, Some created)
    end.

(** A sequence of calls, threading the module variable. *)
Fixpoint getInstance_calls (configs : list (option (gmap string value)))
  (instance : option BuildFactory)
  : list (error + BuildFactory) * option BuildFactory :=
  match configs with
  | [] => ([], instance)
  | config :: rest =>
      let '(r, instance') := getInstance config instance in
      let '(rs, final) := getInstance_calls rest instance' in
      (r :: rs, final)
  end.
End Singleton.

(** ** lib/base.js: the change-tracked record *)

Module Base.

(** Deep equality of two values, by which a field is compared with its
    snapshot. *)
Fixpoint value_eqb (a b : value) {struct a} : bool :=
  match a, b with
  | VUndefined, VUndefined => true
  | VNull, VNull => true
  | VBool x, VBool y => Bool.eqb x y
  | VNum x, VNum y => Z.eqb x y
  | VStr x, VStr y => String.eqb x y
  | VArr xs, VArr ys =>
      (fix all2 (xs ys : list value) {struct xs} : bool :=
         match xs, ys with
         | [], [] => true
         | x :: xs', y :: ys' => value_eqb x y && all2 xs' ys'
         | _, _ => false
         end) xs ys
  | VObj ps, VObj qs =>
      (fix all2 (ps qs : list (string * value)) {struct ps} : bool :=
         match ps, qs with
         | [], [] => true
         | (k, x) :: ps', (l, y) :: qs' =>
             String.eqb k l && value_eqb x y && all2 ps' qs'
         | _, _ => false
         end) ps qs
  | _, _ => false
  end.

(** Induction on values, through the elements of an array and the
    properties of an object. *)
Section ValueInduction.
Variable P : value -> Prop.
Hypothesis case_undefined : P VUndefined.
Hypothesis case_null : P VNull.
Hypothesis case_bool : forall b, P (VBool b).
Hypothesis case_num : forall n, P (VNum n).
Hypothesis case_str : forall s, P (VStr s).
Hypothesis case_arr : forall elems, Forall P elems -> P (VArr elems).
Hypothesis case_obj : forall props, Forall (fun kv => P (snd kv)) props -> P (VObj props).

Fixpoint value_induction (v : value) : P v :=
  match v with
  | VUndefined => case_undefined
  | VNull => case_null
  | VBool b => case_bool b
  | VNum n => case_num n
  | VStr s => case_str s
  | VArr elems =>
      case_arr elems
        ((fix all (l : list value) : Forall P l :=
            match l with
            | [] => @List.Forall_nil _ P
            | x :: rest => @List.Forall_cons _ P x rest (value_induction x) (all rest)
            end) elems)
  | VObj props =>
      case_obj props
        ((fix all (l : list (string * value)) : Forall (fun kv => P (snd kv)) l :=
            match l with
            | [] => @List.Forall_nil _ _
            | kv :: rest =>
                @List.Forall_cons _ (fun kv => P (snd kv)) kv rest
                  (value_induction (snd kv)) (all rest)
            end) props)
  end.
End ValueInduction.

(** What the schema collaborator supplies for an entity kind. *)
Record schema := {
  tableName : string;
  allKeys : list string;
  requiredKeys : list string
}.

(** Modelled from the spec: the record class of lib/base.js, which is not
    among the sources (its test is).  The visible state is [fields], the
    declared fields with their current values; [snapshot] holds the
    values as last persisted; [scm] is the injected capability, which is
    not a field. *)
Record BaseModel := {
  table : string;
  keys : list string;
  fields : gmap string value;
  snapshot : gmap string value;
  scm : value
}.

Definition declared (keys : list string) (config : gmap string value)
  : gmap string value :=
  list_to_map (List.map (fun k => (k, prop config k)) keys).

(** Modelled from the spec: [construct(entityKind, config)].  The
    configuration must supply the id and the required fields; only the
    declared fields are stored, and snapshotted at once. *)
Definition construct (s : schema) (config : gmap string value) : option BaseModel :=
  if forallb (fun k => bool_decide (is_Some (config !! k))) ("id" :: requiredKeys s)
  then Some {| table := tableName s;
               keys := allKeys s;
               fields := declared (allKeys s) config;
               snapshot := declared (allKeys s) config;
               scm := prop config "scmPlugin" |}
  else None.

(** [record[key] = v] *)
Definition assign (key : string) (v : value) (this : BaseModel) : BaseModel :=
  {| table := table this;
     keys := keys this;
     fields := <[key := v]> (fields this);
     snapshot := snapshot this;
     scm := scm this |}.

(** The field differs from its snapshot. *)
Definition differs (this : BaseModel) (key : string) : bool :=
  negb (value_eqb (prop (fields this) key) (prop (snapshot this) key)).

(** Modelled from the spec: [isDirty(key?)]. *)
Definition isDirty (key : option string) (this : BaseModel) : bool :=
  match key with
  | Some k => differs this k
  | None => existsb (differs this) (keys this)
  end.

(** The argument of the datastore's update operation. *)
Record updateConfig := {
  update_table : string;
  update_id : value;
  update_data : gmap string value
}.

Inductive io : Type :=
| DatastoreUpdate (config : updateConfig).

(** The dirty set, and the changed-field map that [update] sends. *)
Definition changes (this : BaseModel) : list string :=
  List.filter (differs this) (keys this).

Definition changed_fields (this : BaseModel) : gmap string value :=
  list_to_map (List.map (fun k => (k, prop (fields this) k)) (changes this)).

(** The record once its current values are the persisted ones. *)
Definition saved (this : BaseModel) : BaseModel :=
  {| table := table this;
     keys := keys this;
     fields := fields this;
     snapshot := fields this;
     scm := scm this |}.

(** The argument that [update] passes to the datastore. *)
Definition updateConfig_of (this : BaseModel) : updateConfig :=
  {| update_table := table this;
     update_id := prop (fields this) "id";
     update_data := changed_fields this |}.

(** Modelled from the spec: [update()], against a datastore whose update
    operation answers [datastore_update]. *)
Definition update (datastore_update : updateConfig -> outcome value) (this : BaseModel)
  : promise io BaseModel :=
  match changes this with
  | [] => resolve this
  | _ :: _ =>
      let config := updateConfig_of this in
      let* _ := call (DatastoreUpdate config) (datastore_update config) in
      resolve (saved this)
  end.

(** What a caller does to a record between two observations. *)
Inductive action : Type :=
| Assign (key : string) (v : value)
| Update (datastore_update : updateConfig -> outcome value).

(** The record after an action; a rejected update leaves it as it was. *)
Definition perform (a : action) (this : BaseModel) : BaseModel :=
  match a with
  | Assign key v => assign key v this
  | Update datastore_update =>
      match snd (update datastore_update this) with
      | Resolved this' => this'
      | Rejected _ => this
      end
  end.

Definition succeeds (a : action) (this : BaseModel) : bool :=
  match a with
  | Assign _ _ => false
  | Update datastore_update =>
      match snd (update datastore_update this) with
      | Resolved _ => true
      | Rejected _ => false
      end
  end.

Definition perform_all (actions : list action) (this : BaseModel) : BaseModel :=
  fold_left (fun record a => perform a record) actions this.

(** [a] is neither a successful update nor an assignment that gives
    [key] its snapshotted value back. *)
Definition keeps (key : string) (a : action) (this : BaseModel) : bool :=
  match a with
  | Assign k v =>
      negb (String.eqb k key) || negb (value_eqb v (prop (snapshot this) key))
  | Update _ => negb (succeeds a this)
  end.

Fixpoint undisturbed (key : string) (actions : list action) (this : BaseModel) : bool :=
  match actions with
  | [] => true
  | a :: rest => keeps key a this && undisturbed key rest (perform a this)
  end.

(** No action of the run is a successful update. *)
Fixpoint unsaved (actions : list action) (this : BaseModel) : bool :=
  match actions with
  | [] => true
  | a :: rest => negb (succeeds a this) && unsaved rest (perform a this)
  end.

End Base.

(** [c] occurs in [s] *)
Fixpoint occurs (c : ascii) (s : string) : bool :=
  match s with
  | EmptyString => false
  | String c' rest => Ascii.eqb c' c || occurs c rest
  end.

(** Neither an array nor an object. *)
Definition primitive (v : value) : bool :=
  match v with
  | VArr _ | VObj _ => false
  | _ => true
  end.

(** [perms] is the empty array, or is not an array and has no property
    [0] of its own. *)
Definition without_first_permutation (perms : value) : bool :=
  match perms with
  | VArr [] => true
  | VArr (_ :: _) => false
  | VObj props =>
      match assoc "0" props with
      | None => true
      | Some _ => false
      end
  | _ => true
  end.

Definition ascending (build1 build2 : BuildModel) : Prop :=
  number build1 <= number build2.

Definition strictly_ascending (build1 build2 : BuildModel) : Prop :=
  number build1 < number build2.

(** ** Observations on a trace *)

(** The model configurations handed to the base factory's [create]. *)
Fixpoint persisted (t : list event) : list (gmap string value) :=
  match t with
  | [] => []
  | BaseFactoryCreate modelConfig :: rest => modelConfig :: persisted rest
  | _ :: rest => persisted rest
  end.

(** The calls of the commit resolution: user lookup, token unsealing,
    source control lookup. *)
Definition is_resolution (ev : event) : bool :=
  match ev with
  | UserFactoryGet _ | UnsealToken | ScmGetCommitSha _ _ => true
  | _ => false
  end.

Definition resolution_calls (t : list event) : list event :=
  List.filter is_resolution t.

(** ** Sample environments *)

Module Sample.

Definition node8 : value :=
  VObj [("image", VStr "node:8");
        ("commands", VArr [VObj [("name", VStr "install")];
                           VObj [("name", VStr "test")]])].

Definition job (perms : value) (p : option PipelineModel) : JobModel :=
  {| permutations := perms; pipeline := Resolved p |}.

Definition build : BuildModel :=
  {| build_id := VStr "b1"; number := 1478086200000; start := Resolved (VStr "started") |}.

(** An environment in which the job lookup answers [j], the user lookup
    [u], and every other collaborator succeeds. *)
Definition env (j : option JobModel) (u : option UserModel) : world :=
  {| Date_now := 1478086200000;
     JobFactory_getInstance := inr (fun _ => Resolved j);
     UserFactory_getInstance := inr (fun _ => Resolved u);
     pipeline_settles_first := false;
     scmPlugin_getCommitSha := fun _ _ => Resolved (VStr "deadbeef");
     BaseFactory_create := fun _ => Resolved build;
     BaseFactory_list := fun _ => Resolved [] |}.

Definition params (sha : option value) : gmap string value :=
  let base : gmap string value :=
    <["jobId" := VStr "job1"]> (<["username" := VStr "me"]> ∅) in
  match sha with
  | Some s => <["sha" := s]> base
  | None => base
  end.

Definition user : UserModel := {| unsealToken := Resolved (VStr "token") |}.

(** The job exists; it has no pipeline. *)
Definition orphan_job : JobModel := job (VArr [node8]) None.

(** The job has a pipeline. *)
Definition piped_job : JobModel :=
  job (VArr [node8]) (Some {| scmUrl := VStr "git@example.com:org/repo.git" |}).

Definition numbered (name : string) (n : Z) : BuildModel :=
  {| build_id := VStr name; number := n; start := Resolved VUndefined |}.

(** An environment whose base factory lists [records]. *)
Definition listing (records : list BuildModel) : world :=
  {| Date_now := 1478086200000;
     JobFactory_getInstance := inr (fun _ => Resolved None);
     UserFactory_getInstance := inr (fun _ => Resolved None);
     pipeline_settles_first := false;
     scmPlugin_getCommitSha := fun _ _ => Resolved (VStr "deadbeef");
     BaseFactory_create := fun _ => Resolved build;
     BaseFactory_list := fun _ => Resolved records |}.

(** A job with the one permutation [node8], fetched with the sha supplied. *)
Definition node_env : world := env (Some (job (VArr [node8]) None)) None.
Definition with_sha : gmap string value := params (Some (VStr "abc123")).

(** A job with a second permutation. *)
Definition matrix_job : JobModel :=
  job (VArr [node8; VObj [("image", VStr "node:6"); ("commands", VArr [])]]) None.

(** A complete first configuration of the build factory. *)
Definition factory_config : gmap string value :=
  <["datastore" := VObj []]>
    (<["executor" := VObj []]>
       (<["uiUri" := VStr "https://ui.example.com"]>
          (<["scmPlugin" := VObj []]> ∅))).

(** The base factory asks for the datastore. *)
Definition base_requires (config : option (gmap string value)) : option error :=
  match config with
  | Some c => if truthy (prop c "datastore") then None
              else Some (Error "No datastore provided to BuildFactory")
  | None => Some (Error "No datastore provided to BuildFactory")
  end.

(** The record of test/lib/base.test.js. *)
Definition base_schema : Base.schema :=
  {| Base.tableName := "base";
     Base.allKeys := ["id"; "foo"; "bar"];
     Base.requiredKeys := [] |}.

Definition base_config : gmap string value :=
  <["scmPlugin" := VObj [("foo", VStr "foo")]]>
    (<["id" := VStr "as12345"]>
       (<["foo" := VStr "foo"]> (<["bar" := VStr "bar"]> ∅))).

Definition base : Base.BaseModel :=
  {| Base.table := "base";
     Base.keys := ["id"; "foo"; "bar"];
     Base.fields := Base.declared ["id"; "foo"; "bar"] base_config;
     Base.snapshot := Base.declared ["id"; "foo"; "bar"] base_config;
     Base.scm := VObj [("foo", VStr "foo")] |}.

Definition banana : Base.BaseModel := Base.assign "foo" (VStr "banana") base.

Definition datastore_ok (_ : Base.updateConfig) : outcome value :=
  Resolved (VObj [("baseId", VStr "1234")]).

Definition datastore_down (_ : Base.updateConfig) : outcome value :=
  Rejected (Error "iLessThanThreeMocha").

End Sample.

(** ** hoek.merge, for options that hold objects *)

Module Hoek.

(** [typeof v === 'object'] for a value that is not [null]. *)
Definition is_object (v : value) : bool :=
  match v with
  | VArr _ | VObj _ => true
  | _ => false
  end.

Definition is_array (v : value) : bool :=
  match v with
  | VArr _ => true
  | _ => false
  end.

(** [props[key] = v]: a present property keeps its place, a new one goes
    last. *)
Fixpoint assoc_set (key : string) (v : value) (props : list (string * value))
  : list (string * value) :=
  match props with
  | [] => [(key, v)]
  | (k, x) :: rest =>
      if String.eqb k key then (k, v) :: rest
      else (k, x) :: assoc_set key v rest
  end.

(** [merge(target, source, false, false)] on a target and a source that
    are both arrays or both plain objects (the only recursive calls, and
    the only ones made here).  An array source replaces the elements of
    the target.  Of an object source, a property that holds an object is
    merged into the target's property when that is an object of the same
    kind, and replaces it otherwise; a property that holds [null] or
    [undefined] is skipped; any other property replaces the target's. *)
Fixpoint merge (target source : value) {struct source} : value :=
  match source with
  | VArr elems =>
      match target with
      | VArr _ => VArr elems
      | _ => target
      end
  | VObj props =>
      match target with
      | VObj tprops =>
          VObj ((fix each (props tprops : list (string * value)) {struct props}
                   : list (string * value) :=
                   match props with
                   | [] => tprops
                   | (k, v) :: rest =>
                       each rest
                         (match v with
                          | VUndefined | VNull => tprops
                          | VArr _ | VObj _ =>
                              match assoc k tprops with
                              | Some t =>
                                  if is_object t && Bool.eqb (is_array t) (is_array v)
                                  then assoc_set k (merge t v) tprops
                                  else assoc_set k v tprops
                              | None => assoc_set k v tprops
                              end
                          | _ => assoc_set k v tprops
                          end)
                   end) props tprops)
      | _ => target
      end
  | _ => target
  end.

(** What one option does to the property of the same name: [Some] is the
    value the property gets, [None] leaves it alone. *)
Definition merged (existing : option value) (v : value) : option value :=
  match v with
  | VUndefined | VNull => None
  | VArr _ | VObj _ =>
      match existing with
      | Some t =>
          if is_object t && Bool.eqb (is_array t) (is_array v)
          then Some (merge t v)
          else Some v
      | None => Some v
      end
  | _ => Some v
  end.

(** [hoek.applyToDefaults(defaults, options)] for any options. *)
Definition applyToDefaults (defaults : gmap string value) (options : list (string * value))
  : gmap string value :=
  fold_left (fun acc '(k, v) =>
               match merged (acc !! k) v with
               | Some x => <[k := x]> acc
               | None => acc
               end) options defaults.

End Hoek.

(** ** The rest of lib/buildFactory.js *)

(** [createClass(config)], lines 83-93, up to [new Build(c)]: the
    configuration that the Build constructor receives. *)
Definition createClass (this : BuildFactory) (config : gmap string value)
  : gmap string value :=
  Hoek.applyToDefaults config
    [("executor", executor this);
     ("apiUri", apiUri this);
     ("tokenGen", tokenGen this);
     ("uiUri", uiUri this)].

Definition nullish (v : value) : bool :=
  match v with
  | VUndefined | VNull => true
  | _ => false
  end.

(** What lines 130-139 read without throwing: a first permutation that is
    neither [null] nor [undefined], whose [commands] is an array of
    values that are neither. *)
Definition runnable (perms : value) : bool :=
  match get perms "0" with
  | inr permutation =>
      negb (nullish permutation)
      && match get permutation "commands" with
         | inr (VArr commands) => forallb (fun c => negb (nullish c)) commands
         | _ => false
         end
  | inl _ => false
  end.

(** The message of the guard that fails first, lines 179-187. *)
Definition first_missing (config : option (gmap string value)) : string :=
  if lacks config "executor" then "No executor provided to BuildFactory"
  else if lacks config "uiUri" then "No uiUri provided to BuildFactory"
  else "No scm plugin provided to BuildFactory".

(** One of the three collaborators is missing. *)
Definition incomplete (config : option (gmap string value)) : bool :=
  lacks config "executor" || lacks config "uiUri" || lacks config "scmPlugin".

Definition is_start (ev : event) : bool :=
  match ev with
  | BuildStart => true
  | _ => false
  end.

(** More sample environments. *)
Module Sample2.

(** The user lookup fails. *)
Definition user_lookup_down (j : JobModel) : world :=
  {| Date_now := 1478086200000;
     JobFactory_getInstance := inr (fun _ => Resolved (Some j));
     UserFactory_getInstance := inr (fun _ => Rejected (Error "datastore down"));
     pipeline_settles_first := false;
     scmPlugin_getCommitSha := fun _ _ => Resolved (VStr "deadbeef");
     BaseFactory_create := fun _ => Resolved Sample.build;
     BaseFactory_list := fun _ => Resolved [] |}.

(** The build is persisted, and then fails to start. *)
Definition stalled : BuildModel :=
  {| build_id := VStr "b2"; number := 1478086200000;
     start := Rejected (Error "executor unavailable") |}.

Definition start_fails : world :=
  {| Date_now := 1478086200000;
     JobFactory_getInstance := inr (fun _ => Resolved (Some Sample.piped_job));
     UserFactory_getInstance := inr (fun _ => Resolved (Some Sample.user));
     pipeline_settles_first := false;
     scmPlugin_getCommitSha := fun _ _ => Resolved (VStr "deadbeef");
     BaseFactory_create := fun _ => Resolved stalled;
     BaseFactory_list := fun _ => Resolved [] |}.

(** A permutation whose second command is [null]. *)
Definition broken_job : JobModel :=
  Sample.job (VArr [VObj [("image", VStr "node:8");
                          ("commands", VArr [VObj [("name", VStr "install")]; VNull])]])
             None.

(** A command without a name. *)
Definition nameless_job : JobModel :=
  Sample.job (VArr [VObj [("image", VStr "node:8");
                          ("commands", VArr [VObj [("command", VStr "npm test")]])]])
             None.

(** Build data that brings its own [apiUri] and [executor] settings. *)
Definition build_data : gmap string value :=
  <["id" := VStr "b1"]>
    (<["apiUri" := VStr "https://api.example.com"]>
       (<["executor" := VObj [("queue", VStr "slow")]]> ∅)).

Definition factory : BuildFactory :=
  new_BuildFactory
    (<["executor" := VObj [("name", VStr "k8s")]]> Sample.factory_config).

End Sample2.

(** * Properties *)

(** ** JavaScript primitives *)

Example number_toString_ex : number_toString 1478086200000 = "1478086200000".
Proof. reflexivity. Qed.
Example number_toString_neg : number_toString (-42) = "-42".
Proof. reflexivity. Qed.
Example split_fraction : split "." "12.5" = ["12"; "5"].
Proof. reflexivity. Qed.
Example split_trailing : split "." "12." = ["12"; ""].
Proof. reflexivity. Qed.
Example get_index : get (VArr [VStr "a"; VStr "b"]) "1" = inr (VStr "b").
Proof. reflexivity. Qed.
Example get_noncanonical : get (VArr [VStr "a"; VStr "b"]) "01" = inr VUndefined.
Proof. reflexivity. Qed.
Example get_char : get (VStr "abc") "0" = inr (VStr "a").
Proof. reflexivity. Qed.
Example toISOString_epoch : Date.toISOString 0 = "1970-01-01T00:00:00.000Z".
Proof. reflexivity. Qed.
Example toISOString_2016 : Date.toISOString 1478086200000 = "2016-11-02T11:30:00.000Z".
Proof. reflexivity. Qed.
Example toISOString_before : Date.toISOString (-1) = "1969-12-31T23:59:59.999Z".
Proof. reflexivity. Qed.
Example toISOString_leap : Date.toISOString 951782400000 = "2000-02-29T00:00:00.000Z".
Proof. reflexivity. Qed.
Example toISOString_leap_2024 : Date.toISOString 1709164800000 = "2024-02-29T00:00:00.000Z".
Proof. reflexivity. Qed.
Example toISOString_1999 : Date.toISOString 946684799999 = "1999-12-31T23:59:59.999Z".
Proof. reflexivity. Qed.
Example toISOString_2100 : Date.toISOString 4102444800000 = "2100-01-01T00:00:00.000Z".
Proof. reflexivity. Qed.
Example toISOString_1900 : Date.toISOString (-2208988800000) = "1900-01-01T00:00:00.000Z".
Proof. reflexivity. Qed.
Example sort_stable :
  Array_sort (fun a b : Z * Z => fst a - fst b) [(3, 1); (1, 2); (3, 3); (2, 4); (1, 5)]
  = [(1, 2); (1, 5); (2, 4); (3, 1); (3, 3)].
Proof. reflexivity. Qed.
Example toISOString_year0 : Date.toISOString (-62167219200000) = "0000-01-01T00:00:00.000Z".
Proof. reflexivity. Qed.
Example toISOString_bc : Date.toISOString (-62198755200000) = "-000001-01-01T00:00:00.000Z".
Proof. reflexivity. Qed.
Example toISOString_10000 : Date.toISOString 253402300800000 = "+010000-01-01T00:00:00.000Z".
Proof. reflexivity. Qed.

(** *** The decimal string of an integer has no fraction *)

Lemma split_without_separator sep s :
  occurs sep s = false -> split sep s = [s].
Proof.
  induction s as [|c rest IH]; simpl; [reflexivity|].
  intros H. apply orb_false_iff in H as [Hc Hrest].
  rewrite Hc, (IH Hrest). reflexivity.
Qed.

Lemma uint_digits_no_point d : occurs "." (NilEmpty.string_of_uint d) = false.
Proof. induction d; simpl; auto. Qed.

Lemma number_toString_no_point n : occurs "." (number_toString n) = false.
Proof.
  unfold number_toString, NilZero.string_of_int, NilZero.string_of_uint.
  destruct (Z.to_int n) as [d|d]; destruct d; simpl;
    auto using uint_digits_no_point.
Qed.

Example fraction_or_zero_fraction : fraction_or_zero "1478086200000.25" = VStr "25".
Proof. reflexivity. Qed.
Example fraction_or_zero_trailing : fraction_or_zero "1478086200000." = VNum 0.
Proof. reflexivity. Qed.

Lemma permutation_index_zero number : permutation_index number = VNum 0.
Proof.
  unfold permutation_index, fraction_or_zero.
  rewrite (split_without_separator _ _ (number_toString_no_point number)).
  reflexivity.
Qed.

(** ** The model configuration *)

Lemma initial_modelConfig_eq number config :
  initial_modelConfig number config =
  <["status" := VStr "QUEUED"]>
    (<["number" := VNum number]>
       (<["createTime" := VStr (Date.toISOString number)]>
          (<["cause" := VStr ("Started by user " +:+ toString (prop config "username"))]>
             config))).
Proof. reflexivity. Qed.

Lemma prop_insert (o : gmap string value) k v : prop (<[k := v]> o) k = v.
Proof. unfold prop. by rewrite lookup_insert_eq. Qed.

Lemma prop_insert_ne (o : gmap string value) k k' v :
  k ≠ k' -> prop (<[k := v]> o) k' = prop o k'.
Proof. intros H. unfold prop. by rewrite lookup_insert_ne. Qed.

Lemma initial_modelConfig_other number config k :
  k ≠ "status" -> k ≠ "number" -> k ≠ "createTime" -> k ≠ "cause" ->
  prop (initial_modelConfig number config) k = prop config k.
Proof.
  intros. rewrite initial_modelConfig_eq.
  rewrite !prop_insert_ne by congruence. reflexivity.
Qed.

(** ** Thrown errors of the step assembly *)

Lemma get_throws v key e : get v key = inl e -> e = TypeError.
Proof.
  destruct v; simpl; try congruence;
    repeat match goal with
           | |- context [if ?b then _ else _] => destruct b
           | |- context [match ?x with Some _ => _ | None => _ end] => destruct x
           end; congruence.
Qed.

Lemma mapE_throws f l e :
  (forall x e', f x = inl e' -> e' = TypeError) ->
  mapE f l = inl e -> e = TypeError.
Proof.
  intros Hf. induction l as [|x rest IH]; simpl; [congruence|].
  destruct (f x) as [e'|y] eqn:Hx; simpl.
  - intros [= <-]. eauto.
  - destruct (mapE f rest); simpl; [|congruence].
    intros [= <-]. auto.
Qed.

Lemma mapE_names l steps :
  mapE step_of l = inr steps ->
  exists names, Forall2 (fun command name => get command "name" = inr name) l names
                /\ steps = List.map step names.
Proof.
  revert steps. induction l as [|x rest IH]; simpl; intros steps.
  - intros [= <-]. exists []. split; [constructor | reflexivity].
  - unfold step_of at 1. destruct (get x "name") as [e|name] eqn:Hx; simpl; [congruence|].
    destruct (mapE step_of rest) as [e|ys] eqn:Hrest; simpl; [congruence|].
    intros [= <-]. destruct (IH ys eq_refl) as (names & Hall & ->).
    exists (name :: names). split; [by constructor | reflexivity].
Qed.

Lemma assemble_inv number job modelConfig sha result :
  assemble number job modelConfig sha = inr result ->
  exists permutation image commands names,
    get (permutations job) "0" = inr permutation
    /\ get permutation "image" = inr image
    /\ get permutation "commands" = inr (VArr commands)
    /\ Forall2 (fun command name => get command "name" = inr name) commands names
    /\ result = <["steps" := VArr (step (VStr "sd-setup")
                                     :: List.map step names ++ [step (VStr "sd-teardown")])]>
                  (<["container" := image]> (<["sha" := sha]> modelConfig)).
Proof.
  unfold assemble. rewrite permutation_index_zero. simpl toString.
  change (number_toString 0) with "0".
  destruct (get (permutations job) "0") as [e|permutation] eqn:Hp; simpl; [congruence|].
  destruct (get permutation "image") as [e|image] eqn:Hi; simpl; [congruence|].
  destruct (get permutation "commands") as [e|commands] eqn:Hc; simpl; [congruence|].
  destruct commands as [| | | | |commands|]; simpl; try congruence.
  destruct (mapE step_of commands) as [e|steps] eqn:Hsteps; simpl; [congruence|].
  intros [= <-]. destruct (mapE_names _ _ Hsteps) as (names & Hall & ->).
  exists permutation, image, commands, names. repeat split; assumption || reflexivity.
Qed.

Lemma assemble_throws number job modelConfig sha e :
  assemble number job modelConfig sha = inl e -> e = TypeError.
Proof.
  unfold assemble.
  destruct (get (permutations job) _) as [e0|permutation] eqn:H0; simpl;
    [intros [= <-]; eauto using get_throws|].
  destruct (get permutation "image") as [e1|image] eqn:H1; simpl;
    [intros [= <-]; eauto using get_throws|].
  destruct (get permutation "commands") as [e2|commands] eqn:H2; simpl;
    [intros [= <-]; eauto using get_throws|].
  destruct (Array_map _ commands) as [e3|steps] eqn:H3; simpl; [|congruence].
  intros [= <-]. destruct commands; simpl in H3; try congruence.
  eapply mapE_throws; [|exact H3].
  intros x e'. unfold step_of. destruct (get x "name") eqn:Hx; simpl; [|congruence].
  intros [= <-]. eauto using get_throws.
Qed.

(** ** Commit resolution *)

Lemma getCommitSha_supplied w job modelConfig :
  truthy (prop modelConfig "sha") = true ->
  getCommitSha w job modelConfig = ([], Resolved (prop modelConfig "sha")).
Proof. intros H. unfold getCommitSha. rewrite H. reflexivity. Qed.

Lemma persisted_app t1 t2 : persisted (t1 ++ t2) = (persisted t1 ++ persisted t2)%list.
Proof.
  induction t1 as [|ev rest IH]; simpl; [reflexivity|].
  destruct ev; simpl; congruence.
Qed.

Lemma getCommitSha_persists_nothing w job modelConfig :
  persisted (fst (getCommitSha w job modelConfig)) = [].
Proof.
  unfold getCommitSha.
  destruct (truthy _); [reflexivity|].
  destruct (UserFactory_getInstance w) as [e|userFactory_get]; [reflexivity|].
  destruct (userFactory_get _) as [[user|]|e], (pipeline job) as [[p|]|e'];
    simpl; try reflexivity.
  destruct (unsealToken user); reflexivity.
Qed.

(** ** The shape of every run of [create] *)

Lemma create_cases w config t r :
  create w config = inr (t, r) ->
  exists factory_get,
    JobFactory_getInstance w = inr factory_get /\
    let jobId := prop config "jobId" in
    let modelConfig := initial_modelConfig (Date_now w) config in
    match factory_get jobId with
    | Rejected e => t = [JobFactoryGet jobId] /\ r = Rejected e
    | Resolved None =>
        t = [JobFactoryGet jobId] /\ r = Rejected (Error "Job does not exist")
    | Resolved (Some job) =>
        match getCommitSha w job modelConfig with
        | (ts, Rejected e) => t = JobFactoryGet jobId :: ts /\ r = Rejected e
        | (ts, Resolved sha) =>
            match assemble (Date_now w) job modelConfig sha with
            | inl e => t = JobFactoryGet jobId :: ts /\ r = Rejected e
            | inr final =>
                match BaseFactory_create w final with
                | Rejected e =>
                    t = (JobFactoryGet jobId :: ts ++ [BaseFactoryCreate final])%list
                    /\ r = Rejected e
                | Resolved build =>
                    t = (JobFactoryGet jobId :: ts ++ [BaseFactoryCreate final; BuildStart])%list
                    /\ r = start build
                end
            end
        end
    end.
Proof.
  unfold create.
  destruct (JobFactory_getInstance w) as [e|factory_get]; [congruence|].
  intros [= H]. exists factory_get. split; [reflexivity|]. simpl.
  revert H. unfold call, andThen at 1.
  destruct (factory_get (prop config "jobId")) as [[job|]|e]; simpl.
  2,3: intros [= <- <-]; split; reflexivity.
  destruct (getCommitSha w job _) as [ts [sha|e]]; simpl.
  2: intros [= <- <-]; split; reflexivity.
  unfold andThen, settle, resolve, reject.
  destruct (assemble _ job _ sha) as [e|final]; simpl.
  { rewrite app_nil_r. intros [= <- <-]; split; reflexivity. }
  destruct (BaseFactory_create w final) as [build|e]; simpl.
  - rewrite <- app_assoc. simpl. intros [= <- <-]. split; reflexivity.
  - intros [= <- <-]. split; reflexivity.
Qed.

(** Whatever [create] hands to the base factory was assembled from the
    fetched job and the resolved sha, and it hands over at most once. *)
Lemma create_persisted w config t r final :
  create w config = inr (t, r) ->
  In final (persisted t) ->
  exists factory_get job ts sha,
    JobFactory_getInstance w = inr factory_get
    /\ factory_get (prop config "jobId") = Resolved (Some job)
    /\ getCommitSha w job (initial_modelConfig (Date_now w) config) = (ts, Resolved sha)
    /\ assemble (Date_now w) job (initial_modelConfig (Date_now w) config) sha = inr final
    /\ persisted t = [final].
Proof.
  intros Hrun Hin.
  destruct (create_cases _ _ _ _ Hrun) as (factory_get & Hfactory & Hcases).
  simpl in Hcases. exists factory_get.
  destruct (factory_get (prop config "jobId")) as [[job|]|e] eqn:Hjob.
  2,3: destruct Hcases as [-> _]; simpl in Hin; destruct Hin.
  pose proof (getCommitSha_persists_nothing w job
                (initial_modelConfig (Date_now w) config)) as Hnone.
  destruct (getCommitSha w job _) as [ts [sha|e]] eqn:Hsha; simpl in Hnone.
  2: destruct Hcases as [-> _]; simpl in Hin; rewrite Hnone in Hin; destruct Hin.
  destruct (assemble _ job _ sha) as [e|final'] eqn:Hassemble.
  1: destruct Hcases as [-> _]; simpl in Hin; rewrite Hnone in Hin; destruct Hin.
  assert (persisted t = [final']) as Hone.
  { destruct (BaseFactory_create w final'); destruct Hcases as [-> _];
      simpl; rewrite persisted_app, Hnone; reflexivity. }
  rewrite Hone in Hin. destruct Hin as [->|[]].
  exists job, ts, sha. auto.
Qed.

Lemma create_resolved w config t v :
  create w config = inr (t, Resolved v) ->
  exists final, persisted t = [final].
Proof.
  intros Hrun.
  destruct (create_cases _ _ _ _ Hrun) as (factory_get & Hfactory & Hcases).
  simpl in Hcases.
  destruct (factory_get (prop config "jobId")) as [[job|]|e];
    try (destruct Hcases as [_ [=]]).
  pose proof (getCommitSha_persists_nothing w job
                (initial_modelConfig (Date_now w) config)) as Hnone.
  destruct (getCommitSha w job _) as [ts [sha|e]]; simpl in Hnone;
    [|destruct Hcases as [_ [=]]].
  destruct (assemble _ job _ sha) as [e|final]; [destruct Hcases as [_ [=]]|].
  exists final.
  destruct (BaseFactory_create w final); destruct Hcases as [-> Hr];
    [|discriminate Hr].
  simpl. rewrite persisted_app, Hnone. reflexivity.
Qed.

(** The assembly sets [sha], [container] and [steps] and nothing else. *)
Lemma assemble_keeps number job modelConfig sha final k :
  assemble number job modelConfig sha = inr final ->
  k ≠ "sha" -> k ≠ "container" -> k ≠ "steps" ->
  prop final k = prop modelConfig k.
Proof.
  intros H ? ? ?.
  destruct (assemble_inv _ _ _ _ _ H) as (? & ? & ? & ? & _ & _ & _ & _ & ->).
  rewrite !prop_insert_ne by congruence. reflexivity.
Qed.

Lemma assemble_sha number job modelConfig sha final :
  assemble number job modelConfig sha = inr final -> prop final "sha" = sha.
Proof.
  intros H.
  destruct (assemble_inv _ _ _ _ _ H) as (? & ? & ? & ? & _ & _ & _ & _ & ->).
  rewrite !prop_insert_ne by congruence. apply prop_insert.
Qed.

(** ** Build creation *)

(** C1: a successful [create] hands exactly one model configuration to the
    base factory.  Its [steps] are the synthetic [sd-setup] step, one step
    per command of the selected permutation, named after the command and in
    the same order, and the synthetic [sd-teardown] step, so there are two
    more steps than commands; its [container] is the permutation's image,
    its [status] is "QUEUED", and a supplied (truthy) [sha] is kept.  For a
    permutation with image "node:8" and commands named "install" and "test",
    and the supplied sha "abc123", the steps are sd-setup, install, test,
    sd-teardown.  (A step is the object [{name}], as in the source;
    [step_name] reads its name.) *)
Theorem create_builds_steps w config t v :
  create w config = inr (t, Resolved v) ->
  exists factory_get job permutation commands names final,
    JobFactory_getInstance w = inr factory_get
    /\ factory_get (prop config "jobId") = Resolved (Some job)
    /\ get (permutations job) "0" = inr permutation
    /\ get permutation "commands" = inr (VArr commands)
    /\ Forall2 (fun command name => get command "name" = inr name) commands names
    /\ persisted t = [final]
    /\ (exists steps,
          prop final "steps" = VArr steps
          /\ steps = (step (VStr "sd-setup") :: List.map step names
                        ++ [step (VStr "sd-teardown")])%list
          /\ length steps = (length commands + 2)%nat
          /\ head steps = Some (step (VStr "sd-setup"))
          /\ last steps = Some (step (VStr "sd-teardown")))
    /\ get permutation "image" = inr (prop final "container")
    /\ prop final "status" = VStr "QUEUED"
    /\ (truthy (prop config "sha") = true -> prop final "sha" = prop config "sha")
    /\ (get permutation "image" = inr (VStr "node:8") ->
        names = [VStr "install"; VStr "test"] ->
        prop config "sha" = VStr "abc123" ->
        prop final "steps" = VArr [step (VStr "sd-setup"); step (VStr "install");
                                   step (VStr "test"); step (VStr "sd-teardown")]
        /\ List.map step_name [step (VStr "sd-setup"); step (VStr "install");
                               step (VStr "test"); step (VStr "sd-teardown")]
           = [inr (VStr "sd-setup"); inr (VStr "install");
              inr (VStr "test"); inr (VStr "sd-teardown")]
        /\ prop final "container" = VStr "node:8"
        /\ prop final "sha" = VStr "abc123"
        /\ prop final "status" = VStr "QUEUED").
Proof.
  intros Hrun.
  destruct (create_resolved _ _ _ _ Hrun) as (final & Hone).
  assert (In final (persisted t)) as Hin by (rewrite Hone; left; reflexivity).
  destruct (create_persisted _ _ _ _ _ Hrun Hin)
    as (factory_get & job & ts & sha & Hfactory & Hjob & Hsha & Hassemble & _).
  destruct (assemble_inv _ _ _ _ _ Hassemble)
    as (permutation & image & commands & names & Hp & Hi & Hc & Hnames & Hfinal).
  assert (prop final "steps" =
          VArr (step (VStr "sd-setup") :: List.map step names
                  ++ [step (VStr "sd-teardown")])) as Hsteps.
  { rewrite Hfinal. apply prop_insert. }
  assert (prop final "container" = image) as Hcontainer.
  { rewrite Hfinal. rewrite prop_insert_ne by congruence. apply prop_insert. }
  assert (prop final "status" = VStr "QUEUED") as Hstatus.
  { rewrite (assemble_keeps _ _ _ _ _ "status" Hassemble) by congruence.
    rewrite initial_modelConfig_eq. apply prop_insert. }
  assert (truthy (prop config "sha") = true -> prop final "sha" = prop config "sha")
    as Hkept.
  { intros Htruthy. rewrite (assemble_sha _ _ _ _ _ Hassemble).
    rewrite getCommitSha_supplied in Hsha
      by (rewrite initial_modelConfig_other by congruence; exact Htruthy).
    injection Hsha as _ <-. apply initial_modelConfig_other; congruence. }
  exists factory_get, job, permutation, commands, names, final.
  repeat match goal with |- _ /\ _ => split end; try assumption.
  - eexists. split; [exact Hsteps|]. split; [reflexivity|].
    split; [|split].
    + simpl. rewrite length_app, length_map. simpl.
      rewrite (Forall2_length _ _ _ Hnames). lia.
    + reflexivity.
    + change (step (VStr "sd-setup") :: List.map step names ++ [step (VStr "sd-teardown")])%list
        with ((step (VStr "sd-setup") :: List.map step names) ++ [step (VStr "sd-teardown")])%list.
      apply last_snoc.
  - congruence.
  - intros Himage -> Hsupplied.
    rewrite Hsteps, Hcontainer, Hstatus, Hkept by (rewrite Hsupplied; reflexivity).
    rewrite Hsupplied. repeat split. congruence.
Qed.

Lemma create_builds_steps_witness :
  exists t v,
    create Sample.node_env Sample.with_sha = inr (t, Resolved v)
    /\ exists final,
         persisted t = [final]
         /\ prop final "steps" = VArr [step (VStr "sd-setup"); step (VStr "install");
                                       step (VStr "test"); step (VStr "sd-teardown")]
         /\ List.map step_name [step (VStr "sd-setup"); step (VStr "install");
                                step (VStr "test"); step (VStr "sd-teardown")]
            = [inr (VStr "sd-setup"); inr (VStr "install");
               inr (VStr "test"); inr (VStr "sd-teardown")]
         /\ prop final "container" = VStr "node:8"
         /\ prop final "sha" = VStr "abc123"
         /\ prop final "status" = VStr "QUEUED".
Proof.
  eexists _, _. split; [reflexivity|].
  destruct (create_builds_steps Sample.node_env Sample.with_sha _ _ eq_refl)
    as (factory_get & job & permutation & commands & names & final
        & Hfactory & Hjob & Hp & Hc & Hnames & Hone & _ & _ & _ & _ & Hsample).
  injection Hfactory as <-. injection Hjob as <-.
  injection Hp as <-. injection Hc as <-.
  inversion Hnames as [|? name1 ? ? H1 Hrest]; subst.
  inversion Hrest as [|? name2 ? ? H2 Hnil]; subst.
  inversion Hnil; subst.
  injection H1 as <-. injection H2 as <-.
  exists final. split; [exact Hone|].
  apply Hsample; reflexivity.
Defined.

(** C7: the model configuration that a successful [create] persists has
    [status] "QUEUED", [cause] "Started by user " followed by the supplied
    username, [number] the timestamp read when the call started, and
    [createTime] the ISO-8601 rendering of that number; whatever the caller
    supplied under these four names is replaced. *)
Theorem create_persists_queued w config t v :
  create w config = inr (t, Resolved v) ->
  exists final,
    persisted t = [final]
    /\ prop final "status" = VStr "QUEUED"
    /\ prop final "cause" = VStr ("Started by user " +:+ toString (prop config "username"))
    /\ (forall username, prop config "username" = VStr username ->
        prop final "cause" = VStr ("Started by user " +:+ username))
    /\ prop final "number" = VNum (Date_now w)
    /\ prop final "createTime" = VStr (Date.toISOString (Date_now w)).
Proof.
  intros Hrun.
  destruct (create_resolved _ _ _ _ Hrun) as (final & Hone).
  assert (In final (persisted t)) as Hin by (rewrite Hone; left; reflexivity).
  destruct (create_persisted _ _ _ _ _ Hrun Hin)
    as (_ & job & _ & sha & _ & _ & _ & Hassemble & _).
  assert (prop final "cause"
          = VStr ("Started by user " +:+ toString (prop config "username"))) as Hcause.
  { rewrite (assemble_keeps _ _ _ _ _ "cause" Hassemble) by congruence.
    rewrite initial_modelConfig_eq.
    rewrite !prop_insert_ne by congruence. apply prop_insert. }
  exists final. repeat match goal with |- _ /\ _ => split end.
  - exact Hone.
  - rewrite (assemble_keeps _ _ _ _ _ "status" Hassemble) by congruence.
    rewrite initial_modelConfig_eq. apply prop_insert.
  - exact Hcause.
  - intros username Husername. rewrite Hcause, Husername. reflexivity.
  - rewrite (assemble_keeps _ _ _ _ _ "number" Hassemble) by congruence.
    rewrite initial_modelConfig_eq.
    rewrite !prop_insert_ne by congruence. apply prop_insert.
  - rewrite (assemble_keeps _ _ _ _ _ "createTime" Hassemble) by congruence.
    rewrite initial_modelConfig_eq.
    rewrite !prop_insert_ne by congruence. apply prop_insert.
Qed.

Lemma create_persists_queued_witness :
  exists t v,
    create Sample.node_env Sample.with_sha = inr (t, Resolved v)
    /\ exists final,
         persisted t = [final]
         /\ prop final "status" = VStr "QUEUED"
         /\ prop final "cause" = VStr "Started by user me"
         /\ prop final "number" = VNum 1478086200000
         /\ prop final "createTime" = VStr "2016-11-02T11:30:00.000Z".
Proof.
  eexists _, _. split; [reflexivity|].
  destruct (create_persists_queued Sample.node_env Sample.with_sha _ _ eq_refl)
    as (final & Hone & Hstatus & _ & Hcause & Hnumber & HcreateTime).
  exists final. repeat split; try assumption.
  apply (Hcause "me"). reflexivity.
Defined.

(** C9: the permutation index derived from the creation timestamp is 0
    for every timestamp, because the decimal string of an integer has no
    fraction; so whatever [create] persists takes its container and its
    steps from [job.permutations[0]]. *)
Theorem create_selects_first_permutation :
  (forall number, permutation_index number = VNum 0)
  /\ (forall w config t r final,
        create w config = inr (t, r) ->
        In final (persisted t) ->
        exists factory_get job permutation commands names,
          JobFactory_getInstance w = inr factory_get
          /\ factory_get (prop config "jobId") = Resolved (Some job)
          /\ get (permutations job) "0" = inr permutation
          /\ get permutation "image" = inr (prop final "container")
          /\ get permutation "commands" = inr (VArr commands)
          /\ Forall2 (fun command name => get command "name" = inr name) commands names
          /\ prop final "steps"
             = VArr (step (VStr "sd-setup") :: List.map step names
                       ++ [step (VStr "sd-teardown")])).
Proof.
  split; [exact permutation_index_zero|].
  intros w config t r final Hrun Hin.
  destruct (create_persisted _ _ _ _ _ Hrun Hin)
    as (factory_get & job & ts & sha & Hfactory & Hjob & _ & Hassemble & _).
  destruct (assemble_inv _ _ _ _ _ Hassemble)
    as (permutation & image & commands & names & Hp & Hi & Hc & Hnames & ->).
  exists factory_get, job, permutation, commands, names.
  repeat match goal with |- _ /\ _ => split end; try assumption.
  - rewrite prop_insert_ne by congruence. rewrite prop_insert. exact Hi.
  - apply prop_insert.
Qed.

Lemma create_selects_first_permutation_witness :
  permutation_index 1478086200000 = VNum 0
  /\ exists t r final,
       create (Sample.env (Some Sample.matrix_job) None) Sample.with_sha = inr (t, r)
       /\ persisted t = [final]
       /\ prop final "container" = VStr "node:8".
Proof.
  destruct create_selects_first_permutation as [Hindex Hfirst].
  split; [apply Hindex|].
  destruct (create_resolved (Sample.env (Some Sample.matrix_job) None) Sample.with_sha
              _ _ eq_refl) as (final & Hone).
  eexists _, _, final. split; [reflexivity|]. split; [exact Hone|].
  destruct (Hfirst (Sample.env (Some Sample.matrix_job) None) Sample.with_sha _ _ final
              eq_refl)
    as (factory_get & job & permutation & _ & _ & Hfactory & Hjob & Hp & Hi & _).
  { rewrite Hone. left. reflexivity. }
  injection Hfactory as <-. injection Hjob as <-. injection Hp as <-.
  injection Hi as <-. reflexivity.
Defined.

(** ** A job without a first permutation *)

Lemma nth_chars_primitive i s : primitive (nth i (chars s) VUndefined) = true.
Proof.
  revert i. induction s as [|c rest IH]; intros [|i]; simpl; auto.
Qed.

(** A read from a primitive answers a primitive, if it does not throw. *)
Lemma get_primitive v key x :
  primitive v = true -> get v key = inr x -> primitive x = true.
Proof.
  destruct v as [| | | |s| |]; simpl; try congruence; intros _.
  - intros [= <-]. reflexivity.
  - intros [= <-]. reflexivity.
  - destruct (String.eqb key "length"); [intros [= <-]; reflexivity|].
    destruct (array_index (chars s) key); intros [= <-];
      [apply nth_chars_primitive | reflexivity].
Qed.

Lemma get_without_first_permutation perms x :
  without_first_permutation perms = true -> get perms "0" = inr x ->
  primitive x = true.
Proof.
  destruct perms as [| | | | |elems|props].
  1-5: intros _; apply get_primitive; reflexivity.
  - destruct elems; simpl; [|congruence]. intros _ [= <-]. reflexivity.
  - simpl. destruct (assoc "0" props); [congruence|].
    intros _ [= <-]. reflexivity.
Qed.

Lemma assemble_without_first_permutation number job modelConfig sha :
  without_first_permutation (permutations job) = true ->
  assemble number job modelConfig sha = inl TypeError.
Proof.
  intros Hnone.
  destruct (assemble number job modelConfig sha) as [e|final] eqn:Hassemble.
  - f_equal. eauto using assemble_throws.
  - destruct (assemble_inv _ _ _ _ _ Hassemble)
      as (permutation & _ & commands & _ & Hp & _ & Hc & _).
    pose proof (get_without_first_permutation _ _ Hnone Hp) as Hprim.
    pose proof (get_primitive _ _ _ Hprim Hc). discriminate.
Qed.

(** C10: [create] presupposes that the fetched job has a first
    permutation.  If [job.permutations] is the empty array, or is not an
    array and has no property [0] (it is undefined, null, a boolean, a
    number, a string, or an object without that property), nothing is
    persisted, and once the sha is resolved the promise rejects with a
    [TypeError], not with a descriptive error. *)
Theorem create_without_permutation w config t r factory_get job :
  create w config = inr (t, r) ->
  JobFactory_getInstance w = inr factory_get ->
  factory_get (prop config "jobId") = Resolved (Some job) ->
  without_first_permutation (permutations job) = true ->
  persisted t = []
  /\ (forall v, r <> Resolved v)
  /\ (forall sha,
        snd (getCommitSha w job (initial_modelConfig (Date_now w) config)) = Resolved sha ->
        r = Rejected TypeError).
Proof.
  intros Hrun Hfactory Hjob Hnone.
  destruct (create_cases _ _ _ _ Hrun) as (factory_get' & Hfactory' & Hcases).
  rewrite Hfactory in Hfactory'. injection Hfactory' as <-.
  simpl in Hcases. rewrite Hjob in Hcases.
  pose proof (getCommitSha_persists_nothing w job
                (initial_modelConfig (Date_now w) config)) as Hquiet.
  destruct (getCommitSha w job _) as [ts [sha|e]]; simpl in Hquiet.
  - rewrite (assemble_without_first_permutation _ _ _ _ Hnone) in Hcases.
    destruct Hcases as [-> ->]. simpl. repeat split; auto; congruence.
  - destruct Hcases as [-> ->]. simpl. repeat split; auto; congruence.
Qed.

Lemma create_without_permutation_witness :
  exists t,
    create (Sample.env (Some (Sample.job (VArr []) None)) None) Sample.with_sha
    = inr (t, Rejected TypeError)
    /\ persisted t = [].
Proof.
  eexists. split; [reflexivity|].
  eapply (create_without_permutation
            (Sample.env (Some (Sample.job (VArr []) None)) None) Sample.with_sha);
    reflexivity.
Defined.

(** ** Missing job, user or pipeline *)

(** C2, as the code has it: when the job lookup answers nothing, [create]
    rejects with "Job does not exist".  When the job exists and no truthy
    sha was supplied: if the user lookup answers nothing and the job's
    pipeline promise resolves, it rejects with "User does not exist"; if
    the user exists and the pipeline promise resolves to nothing, it
    rejects with "Pipeline does not exist".  In each case the only calls
    made are the lookups, and nothing is persisted. *)
Theorem create_rejects_missing w config factory_get :
  JobFactory_getInstance w = inr factory_get ->
  let jobId := prop config "jobId" in
  let username := prop config "username" in
  (factory_get jobId = Resolved None ->
   create w config = inr ([JobFactoryGet jobId], Rejected (Error "Job does not exist"))
   /\ persisted [JobFactoryGet jobId] = [])
  /\ (forall job userFactory_get,
        factory_get jobId = Resolved (Some job) ->
        truthy (prop config "sha") = false ->
        UserFactory_getInstance w = inr userFactory_get ->
        persisted [JobFactoryGet jobId; UserFactoryGet username] = []
        /\ (userFactory_get username = Resolved None ->
            (exists p, pipeline job = Resolved p) ->
            create w config = inr ([JobFactoryGet jobId; UserFactoryGet username],
                                   Rejected (Error "User does not exist")))
        /\ (forall user,
              userFactory_get username = Resolved (Some user) ->
              pipeline job = Resolved None ->
              create w config = inr ([JobFactoryGet jobId; UserFactoryGet username],
                                     Rejected (Error "Pipeline does not exist")))).
Proof.
  intros Hfactory jobId username. split.
  - intros Hjob. split; [|reflexivity].
    unfold create. rewrite Hfactory. fold jobId. rewrite Hjob. reflexivity.
  - intros job userFactory_get Hjob Hsha Huser.
    assert (prop (initial_modelConfig (Date_now w) config) "sha" = prop config "sha")
      as Hsha' by (apply initial_modelConfig_other; congruence).
    assert (prop (initial_modelConfig (Date_now w) config) "username" = username)
      as Hname by (apply initial_modelConfig_other; congruence).
    split; [reflexivity|]. split.
    + intros Hnone [p Hp].
      unfold create. rewrite Hfactory. fold jobId. rewrite Hjob.
      unfold call, andThen at 1. unfold andThen at 1. unfold andThen at 1.
      unfold getCommitSha. rewrite Hsha', Hsha, Huser, Hname, Hnone, Hp.
      reflexivity.
    + intros user Hsome Hp.
      unfold create. rewrite Hfactory. fold jobId. rewrite Hjob.
      unfold call, andThen at 1. unfold andThen at 1. unfold andThen at 1.
      unfold getCommitSha. rewrite Hsha', Hsha, Huser, Hname, Hsome, Hp.
      reflexivity.
Qed.

Lemma create_rejects_missing_witness :
  create (Sample.env None None) (Sample.params None)
  = inr ([JobFactoryGet (VStr "job1")], Rejected (Error "Job does not exist"))
  /\ create (Sample.env (Some Sample.orphan_job) None) (Sample.params None)
     = inr ([JobFactoryGet (VStr "job1"); UserFactoryGet (VStr "me")],
            Rejected (Error "User does not exist"))
  /\ create (Sample.env (Some Sample.orphan_job) (Some Sample.user)) (Sample.params None)
     = inr ([JobFactoryGet (VStr "job1"); UserFactoryGet (VStr "me")],
            Rejected (Error "Pipeline does not exist")).
Proof.
  split; [|split].
  - apply (create_rejects_missing (Sample.env None None) (Sample.params None) _ eq_refl).
    reflexivity.
  - eapply (create_rejects_missing (Sample.env (Some Sample.orphan_job) None)
              (Sample.params None) _ eq_refl); try reflexivity.
    eexists; reflexivity.
  - eapply (create_rejects_missing (Sample.env (Some Sample.orphan_job) (Some Sample.user))
              (Sample.params None) _ eq_refl); reflexivity.
Defined.

(** Against C2 as stated: the user is checked before the pipeline: with neither of them, the
    message names the user, so "no sha and no pipeline" does not by itself
    give "Pipeline does not exist". *)
Lemma create_pipeline_message_counterexample :
  ~ (forall w config factory_get job t r,
       JobFactory_getInstance w = inr factory_get ->
       factory_get (prop config "jobId") = Resolved (Some job) ->
       config !! "sha" = None ->
       pipeline job = Resolved None ->
       create w config = inr (t, r) ->
       r = Rejected (Error "Pipeline does not exist")).
Proof.
  intros Hclaim.
  specialize (Hclaim (Sample.env (Some Sample.orphan_job) None) (Sample.params None)
                _ Sample.orphan_job _ _ eq_refl eq_refl eq_refl eq_refl eq_refl).
  discriminate Hclaim.
Qed.

(** ** A supplied sha *)

Lemma resolution_calls_app t1 t2 :
  resolution_calls (t1 ++ t2) = (resolution_calls t1 ++ resolution_calls t2)%list.
Proof. apply List.filter_app. Qed.

(** C3, as the code has it: when the supplied [sha] is truthy (a string:
    not empty), the commit resolution answers it at once, so [create]
    makes no user lookup, unseals no token and asks source control
    nothing, and whatever it persists carries the supplied value. *)
Theorem create_with_sha w config :
  truthy (prop config "sha") = true ->
  (forall job,
     getCommitSha w job (initial_modelConfig (Date_now w) config)
     = ([], Resolved (prop config "sha")))
  /\ (forall t r,
        create w config = inr (t, r) ->
        resolution_calls t = []
        /\ (forall final, In final (persisted t) -> prop final "sha" = prop config "sha")).
Proof.
  intros Htruthy.
  assert (forall job,
            getCommitSha w job (initial_modelConfig (Date_now w) config)
            = ([], Resolved (prop config "sha"))) as Hshort.
  { intros job. rewrite getCommitSha_supplied;
      rewrite initial_modelConfig_other by congruence; auto. }
  split; [exact Hshort|].
  intros t r Hrun. split.
  - destruct (create_cases _ _ _ _ Hrun) as (factory_get & _ & Hcases).
    simpl in Hcases.
    destruct (factory_get (prop config "jobId")) as [[job|]|e].
    2,3: destruct Hcases as [-> _]; reflexivity.
    rewrite Hshort in Hcases.
    destruct (assemble _ job _ _) as [e|final]; [destruct Hcases as [-> _]; reflexivity|].
    destruct (BaseFactory_create w final); destruct Hcases as [-> _]; reflexivity.
  - intros final Hin.
    destruct (create_persisted _ _ _ _ _ Hrun Hin)
      as (_ & job & ts & sha & _ & _ & Hsha & Hassemble & _).
    rewrite Hshort in Hsha. injection Hsha as _ <-.
    eauto using assemble_sha.
Qed.

Lemma create_with_sha_witness :
  exists t r,
    create Sample.node_env Sample.with_sha = inr (t, r)
    /\ resolution_calls t = []
    /\ (forall final, In final (persisted t) -> prop final "sha" = VStr "abc123").
Proof.
  destruct (create_with_sha Sample.node_env Sample.with_sha eq_refl) as [_ Hrun].
  eexists _, _. split; [reflexivity|].
  exact (Hrun _ _ eq_refl).
Defined.

Example create_empty_sha_calls :
  exists final,
    create (Sample.env (Some Sample.piped_job) (Some Sample.user))
           (Sample.params (Some (VStr "")))
    = inr ([JobFactoryGet (VStr "job1"); UserFactoryGet (VStr "me"); UnsealToken;
            ScmGetCommitSha (VStr "git@example.com:org/repo.git") (VStr "token");
            BaseFactoryCreate final; BuildStart],
           Resolved (VStr "started"))
    /\ prop final "sha" = VStr "deadbeef".
Proof. eexists. split; reflexivity. Qed.

(** Against C3 as stated: the empty string is a supplied sha, and it is
    resolved all the same. *)
Lemma create_empty_sha_counterexample :
  ~ (forall w config sha t r,
       config !! "sha" = Some (VStr sha) ->
       create w config = inr (t, r) ->
       resolution_calls t = []).
Proof.
  intros Hclaim.
  specialize (Hclaim (Sample.env (Some Sample.piped_job) (Some Sample.user))
                (Sample.params (Some (VStr ""))) "" _ _ eq_refl eq_refl).
  discriminate Hclaim.
Qed.

(** ** Sorting by number *)

Section SortCorrect.
Context {A : Type} (compareFn : A -> A -> Z).

Lemma sort_insert_Permutation x l : Permutation (x :: l) (sort_insert compareFn x l).
Proof.
  induction l as [|y rest IH]; simpl; [reflexivity|].
  destruct (compareFn x y <=? 0); [reflexivity|].
  rewrite perm_swap. apply perm_skip, IH.
Qed.

Lemma Array_sort_Permutation l : Permutation l (Array_sort compareFn l).
Proof.
  induction l as [|x rest IH]; simpl; [reflexivity|].
  rewrite <- sort_insert_Permutation. apply perm_skip, IH.
Qed.

(** A consistent comparator: any two elements are ordered one way or the
    other, and the order is transitive. *)
Hypothesis compare_total : forall x y, in_order compareFn x y \/ in_order compareFn y x.
Hypothesis compare_trans :
  forall x y z, in_order compareFn x y -> in_order compareFn y z -> in_order compareFn x z.

Lemma sort_insert_sorted x l :
  StronglySorted (in_order compareFn) l ->
  StronglySorted (in_order compareFn) (sort_insert compareFn x l).
Proof.
  induction 1 as [|y rest Hrest IH Hy]; simpl.
  - repeat constructor.
  - destruct (Z.leb_spec (compareFn x y) 0) as [Hxy|Hxy].
    + constructor; [by constructor|].
      constructor; [exact Hxy|].
      eapply Forall_impl; [exact Hy|]. intros z Hz. eapply compare_trans; eauto.
    + constructor; [exact IH|].
      rewrite <- sort_insert_Permutation. constructor; [|exact Hy].
      destruct (compare_total x y) as [H|H]; [unfold in_order in H; lia | exact H].
Qed.

Lemma Array_sort_sorted l : StronglySorted (in_order compareFn) (Array_sort compareFn l).
Proof.
  induction l as [|x rest IH]; simpl; [constructor|].
  apply sort_insert_sorted, IH.
Qed.
End SortCorrect.

Lemma StronglySorted_weaken {A} (R R' : A -> A -> Prop) l :
  (forall x y, R x y -> R' x y) -> StronglySorted R l -> StronglySorted R' l.
Proof.
  intros Himp. induction 1 as [|x rest Hrest IH Hx]; constructor; [exact IH|].
  eapply Forall_impl; [exact Hx|]. auto.
Qed.

Lemma sort_by_number_ascending records :
  StronglySorted ascending (Array_sort by_number records).
Proof.
  apply (StronglySorted_weaken (in_order by_number)).
  - unfold in_order, by_number, ascending. intros x y. lia.
  - apply Array_sort_sorted; unfold in_order, by_number.
    + intros x y. lia.
    + intros x y z. lia.
Qed.

Lemma ascending_distinct_strict l :
  StronglySorted ascending l -> NoDup (List.map number l) ->
  StronglySorted strictly_ascending l.
Proof.
  induction 1 as [|x rest Hrest IH Hx]; simpl; intros Hnodup; [constructor|].
  apply NoDup_cons in Hnodup as [Hfresh Hnodup].
  constructor; [auto|].
  apply Forall_forall. intros y Hy.
  rewrite Forall_forall in Hx. specialize (Hx y Hy).
  unfold ascending in Hx. unfold strictly_ascending.
  assert (number x <> number y); [|lia].
  intros Heq. apply Hfresh. rewrite Heq.
  apply list_elem_of_In, in_map. apply list_elem_of_In. exact Hy.
Qed.

Example sort_unsorted :
  List.map number
    (Array_sort by_number [Sample.numbered "c" 3; Sample.numbered "a" 1; Sample.numbered "b" 2])
  = [1; 2; 3].
Proof. reflexivity. Qed.

(** C6, as the code has it: [getBuildsForJobId] makes one call, the base
    factory's [list] with the filter [jobId] of its argument, 25 records a
    page, page 1.  A failure of that call is forwarded.  When it answers
    records, the result holds the same records in ascending order of
    [number], however they were ordered; the order is strictly ascending
    when no two records share a number. *)
Theorem getBuildsForJobId_sorted w config :
  fst (getBuildsForJobId w config) = [BaseFactoryList (listConfig_for config)]
  /\ params_jobId (listConfig_for config) = prop config "jobId"
  /\ paginate_count (listConfig_for config) = 25
  /\ paginate_page (listConfig_for config) = 1
  /\ (forall e,
        BaseFactory_list w (listConfig_for config) = Rejected e ->
        snd (getBuildsForJobId w config) = Rejected e)
  /\ (forall records,
        BaseFactory_list w (listConfig_for config) = Resolved records ->
        exists sorted,
          snd (getBuildsForJobId w config) = Resolved sorted
          /\ Permutation records sorted
          /\ StronglySorted ascending sorted
          /\ (NoDup (List.map number records) -> StronglySorted strictly_ascending sorted)).
Proof.
  unfold getBuildsForJobId.
  unfold call, andThen, resolve.
  destruct (BaseFactory_list w (listConfig_for config)) as [records|e]; simpl.
  - repeat split; try congruence.
    intros ? [= <-]. exists (Array_sort by_number records).
    pose proof (Array_sort_Permutation by_number records) as Hperm.
    pose proof (sort_by_number_ascending records) as Hsorted.
    repeat split; auto.
    intros Hnodup. apply ascending_distinct_strict; [exact Hsorted|].
    rewrite <- (Permutation_map number Hperm). exact Hnodup.
  - repeat split; try congruence.
Qed.

Lemma getBuildsForJobId_sorted_witness :
  exists sorted,
    getBuildsForJobId
      (Sample.listing [Sample.numbered "c" 3; Sample.numbered "a" 1; Sample.numbered "b" 2])
      (Sample.params None)
    = ([BaseFactoryList {| params_jobId := VStr "job1";
                           paginate_count := 25;
                           paginate_page := 1 |}],
       Resolved sorted)
    /\ List.map number sorted = [1; 2; 3]
    /\ StronglySorted strictly_ascending sorted.
Proof.
  destruct (getBuildsForJobId_sorted
              (Sample.listing [Sample.numbered "c" 3; Sample.numbered "a" 1;
                               Sample.numbered "b" 2])
              (Sample.params None)) as (_ & _ & _ & _ & _ & Hsorted).
  destruct (Hsorted _ eq_refl) as (sorted & Hresult & _ & _ & Hstrict).
  injection Hresult as <-.
  eexists. split; [reflexivity|]. split; [reflexivity|].
  apply Hstrict. apply (bool_decide_unpack _). vm_compute. exact I.
Defined.

(** Against C6 as stated: for two builds of the same millisecond the
    result is ascending, not strictly ascending. *)
Lemma getBuildsForJobId_strict_counterexample :
  ~ (forall w config records sorted,
       BaseFactory_list w (listConfig_for config) = Resolved records ->
       snd (getBuildsForJobId w config) = Resolved sorted ->
       StronglySorted strictly_ascending sorted).
Proof.
  intros Hclaim.
  specialize (Hclaim (Sample.listing [Sample.numbered "a" 5; Sample.numbered "b" 5])
                (Sample.params None) _ _ eq_refl eq_refl).
  apply StronglySorted_inv in Hclaim as [_ Hfirst].
  apply Forall_inv in Hfirst. unfold strictly_ascending in Hfirst.
  simpl in Hfirst. lia.
Qed.

(** ** The singleton *)

Lemma getInstance_existing base_requires config existing :
  getInstance base_requires config (Some existing) = (inr existing, Some existing).
Proof. reflexivity. Qed.

Lemma getInstance_calls_existing base_requires configs existing :
  getInstance_calls base_requires configs (Some existing)
  = (List.map (fun _ => inr existing) configs, Some existing).
Proof.
  induction configs as [|config rest IH]; simpl; [reflexivity|].
  rewrite IH. reflexivity.
Qed.

(** C5: while no instance exists, a call whose configuration is absent or
    lacks [executor], [uiUri] or [scmPlugin] throws a configuration error
    and leaves the module without an instance.  A first call that returns
    an instance supplied all three, and the module keeps that instance;
    from then on every call, with any configuration or none, returns that
    same instance and leaves it in place. *)
Theorem getInstance_singleton base_requires :
  (forall config,
     lacks config "executor" = true \/ lacks config "uiUri" = true
     \/ lacks config "scmPlugin" = true ->
     exists message,
       getInstance base_requires config None = (inl (Error message), None))
  /\ (forall config first instance',
        getInstance base_requires config None = (inr first, instance') ->
        instance' = Some first
        /\ lacks config "executor" = false
        /\ lacks config "uiUri" = false
        /\ lacks config "scmPlugin" = false
        /\ (forall later,
              getInstance base_requires later (Some first) = (inr first, Some first))
        /\ (forall configs,
              getInstance_calls base_requires configs (Some first)
              = (List.map (fun _ => inr first) configs, Some first))).
Proof.
  split.
  - intros config H. unfold getInstance. simpl.
    destruct (lacks config "executor"); [eauto|].
    destruct (lacks config "uiUri"); [eauto|].
    destruct (lacks config "scmPlugin"); [eauto|].
    destruct H as [H|[H|H]]; discriminate H.
  - intros config first instance'. unfold getInstance. simpl.
    destruct (lacks config "executor"); [congruence|].
    destruct (lacks config "uiUri"); [congruence|].
    destruct (lacks config "scmPlugin"); [congruence|].
    destruct (base_requires config), config; try congruence.
    intros [= <- <-].
    repeat split; auto using getInstance_existing, getInstance_calls_existing.
Qed.

Lemma getInstance_singleton_witness :
  (exists message,
     getInstance Sample.base_requires (Some (delete "uiUri" Sample.factory_config)) None
     = (inl (Error message), None))
  /\ getInstance_calls Sample.base_requires
       [Some Sample.factory_config; None; Some ∅] None
     = ([inr (new_BuildFactory Sample.factory_config);
         inr (new_BuildFactory Sample.factory_config);
         inr (new_BuildFactory Sample.factory_config)],
        Some (new_BuildFactory Sample.factory_config)).
Proof.
  destruct (getInstance_singleton Sample.base_requires) as [Hmissing Hfirst].
  split.
  - apply Hmissing. right. left. reflexivity.
  - destruct (Hfirst (Some Sample.factory_config) _ _ eq_refl) as (_ & _ & _ & _ & _ & Hlater).
    change (getInstance_calls Sample.base_requires
              [Some Sample.factory_config; None; Some ∅] None)
      with (let '(rs, final) :=
              getInstance_calls Sample.base_requires [None; Some ∅]
                (Some (new_BuildFactory Sample.factory_config)) in
            (inr (new_BuildFactory Sample.factory_config) :: rs, final)).
    rewrite Hlater. reflexivity.
Defined.

(** ** The change-tracked record *)

Module BaseFacts.
Import Base.

Lemma value_eqb_eq a : forall b, value_eqb a b = true <-> a = b.
Proof.
  induction a as [| |x|x|x|xs IH|ps IH] using value_induction; intros b.
  - destruct b; simpl; split; congruence.
  - destruct b; simpl; split; congruence.
  - destruct b as [| |y| | | |]; simpl; try (split; congruence).
    rewrite Bool.eqb_true_iff. split; congruence.
  - destruct b as [| | |y| | |]; simpl; try (split; congruence).
    rewrite Z.eqb_eq. split; congruence.
  - destruct b as [| | | |y| |]; simpl; try (split; congruence).
    rewrite String.eqb_eq. split; congruence.
  - destruct b as [| | | | |ys|]; simpl; try (split; congruence).
    revert ys. induction IH as [|x xs Hx _ IHxs]; intros [|y ys];
      try (split; congruence).
    rewrite andb_true_iff, Hx, IHxs. split.
    + intros [-> [= ->]]. reflexivity.
    + intros [= -> ->]. auto.
  - destruct b as [| | | | | |qs]; simpl; try (split; congruence).
    revert qs. induction IH as [|[k x] ps Hx _ IHps]; intros [|[l y] qs];
      try (split; congruence).
    simpl in Hx.
    rewrite !andb_true_iff, String.eqb_eq, Hx, IHps. split.
    + intros [[-> ->] [= ->]]. reflexivity.
    + intros [= -> -> ->]. auto.
Qed.

Lemma value_eqb_refl a : value_eqb a a = true.
Proof. by apply value_eqb_eq. Qed.


Lemma differs_clean this k : fields this = snapshot this -> differs this k = false.
Proof. intros H. unfold differs. rewrite H, value_eqb_refl. reflexivity. Qed.

Lemma clean_not_dirty this key : fields this = snapshot this -> isDirty key this = false.
Proof.
  intros H. destruct key as [k|]; simpl; [by apply differs_clean|].
  induction (keys this) as [|k rest IH]; simpl; [reflexivity|].
  rewrite differs_clean, IH by exact H. reflexivity.
Qed.

Lemma changes_nil this : changes this = [] <-> isDirty None this = false.
Proof.
  unfold changes. simpl.
  induction (keys this) as [|k rest IH]; simpl; [tauto|].
  destruct (differs this k); simpl; [split; congruence | exact IH].
Qed.

Lemma lookup_tabulate (f : string -> value) (l : list string) k :
  (list_to_map (List.map (fun k => (k, f k)) l) : gmap string value) !! k
  = if bool_decide (k ∈ l) then Some (f k) else None.
Proof.
  induction l as [|k0 rest IH].
  - apply lookup_empty.
  - change (list_to_map (List.map (fun k => (k, f k)) (k0 :: rest)) : gmap string value)
      with (<[k0 := f k0]> (list_to_map (List.map (fun k => (k, f k)) rest)
                            : gmap string value)).
    destruct (decide (k0 = k)) as [->|Hne].
    + rewrite lookup_insert_eq. rewrite bool_decide_eq_true_2; [reflexivity|].
      apply list_elem_of_here.
    + rewrite lookup_insert_ne by exact Hne. rewrite IH.
      apply (f_equal (fun b : bool => if b then Some (f k) else None)).
      apply bool_decide_ext. rewrite elem_of_cons. split; [auto|].
      intros [Heq|Hin]; [congruence | exact Hin].
Qed.

Lemma changed_fields_lookup this k v :
  changed_fields this !! k = Some v
  <-> In k (keys this) /\ isDirty (Some k) this = true /\ v = prop (fields this) k.
Proof.
  unfold changed_fields. rewrite lookup_tabulate. unfold changes. simpl.
  case_bool_decide as Hin; rewrite list_elem_of_In, List.filter_In in Hin.
  - split; [intros [= <-]; tauto | intros (_ & _ & ->); reflexivity].
  - split; [congruence | tauto].
Qed.


Lemma update_clean datastore_update this :
  isDirty None this = false -> update datastore_update this = ([], Resolved this).
Proof.
  intros H. apply changes_nil in H. unfold update. rewrite H. reflexivity.
Qed.

Lemma update_dirty datastore_update this :
  isDirty None this = true ->
  update datastore_update this
  = ([DatastoreUpdate (updateConfig_of this)],
     match datastore_update (updateConfig_of this) with
     | Resolved _ => Resolved (saved this)
     | Rejected e => Rejected e
     end).
Proof.
  intros H. unfold update.
  destruct (changes this) eqn:Hchanges.
  - apply changes_nil in Hchanges. congruence.
  - unfold call, andThen, resolve.
    destruct (datastore_update (updateConfig_of this)); reflexivity.
Qed.

Lemma saved_clean this key : isDirty key (saved this) = false.
Proof. apply clean_not_dirty. reflexivity. Qed.


Example construct_base : construct Sample.base_schema Sample.base_config = Some Sample.base.
Proof. reflexivity. Qed.

Example base_fields :
  List.map (prop (fields Sample.base)) ["id"; "foo"; "bar"; "datastore"]
  = [VStr "as12345"; VStr "foo"; VStr "bar"; VUndefined].
Proof. reflexivity. Qed.

Example update_noop :
  update Sample.datastore_ok Sample.base = ([], Resolved Sample.base).
Proof. reflexivity. Qed.

Example banana_changes :
  isDirty None Sample.banana = true
  /\ isDirty (Some "foo") Sample.banana = true
  /\ isDirty (Some "bar") Sample.banana = false
  /\ map_to_list (changed_fields Sample.banana) = [("foo", VStr "banana")]
  /\ update_id (updateConfig_of Sample.banana) = VStr "as12345"
  /\ update_table (updateConfig_of Sample.banana) = "base".
Proof. repeat split; vm_compute; reflexivity. Qed.

Example update_down :
  snd (update Sample.datastore_down Sample.banana) = Rejected (Error "iLessThanThreeMocha").
Proof. reflexivity. Qed.

(** C4: [update()] on a record with no dirty field resolves with the
    record as it is and calls nothing.  On a record with a dirty field it
    calls the datastore's update once, with the record's table, its id and
    a [data] that holds exactly the dirty declared fields, each with its
    current value; if that call resolves, [update()] resolves with the
    record, whose fields are unchanged and whose snapshot now equals them,
    so that it is clean; if it rejects, [update()] rejects with the same
    error. *)
Theorem update_sends_changes datastore_update this :
  (isDirty None this = false ->
   update datastore_update this = ([], Resolved this))
  /\ (isDirty None this = true ->
      fst (update datastore_update this) = [DatastoreUpdate (updateConfig_of this)]
      /\ update_table (updateConfig_of this) = table this
      /\ update_id (updateConfig_of this) = prop (fields this) "id"
      /\ (forall k v,
            update_data (updateConfig_of this) !! k = Some v
            <-> In k (keys this) /\ isDirty (Some k) this = true
                /\ v = prop (fields this) k)
      /\ (forall answer,
            datastore_update (updateConfig_of this) = Resolved answer ->
            exists this',
              snd (update datastore_update this) = Resolved this'
              /\ fields this' = fields this
              /\ snapshot this' = fields this
              /\ keys this' = keys this
              /\ table this' = table this
              /\ isDirty None this' = false)
      /\ (forall e,
            datastore_update (updateConfig_of this) = Rejected e ->
            snd (update datastore_update this) = Rejected e)).
Proof.
  split; [apply update_clean|].
  intros Hdirty. rewrite update_dirty by exact Hdirty. simpl.
  repeat match goal with |- _ /\ _ => split end; try reflexivity.
  - apply changed_fields_lookup.
  - intros answer ->. exists (saved this).
    repeat split. exact (saved_clean this None).
  - intros e ->. reflexivity.
Qed.

Lemma update_sends_changes_witness :
  update Sample.datastore_ok Sample.base = ([], Resolved Sample.base)
  /\ fst (update Sample.datastore_ok Sample.banana)
     = [DatastoreUpdate (updateConfig_of Sample.banana)]
  /\ update_data (updateConfig_of Sample.banana) !! "foo" = Some (VStr "banana")
  /\ update_data (updateConfig_of Sample.banana) !! "bar" = None
  /\ snd (update Sample.datastore_down Sample.banana)
     = Rejected (Error "iLessThanThreeMocha")
  /\ exists this',
       snd (update Sample.datastore_ok Sample.banana) = Resolved this'
       /\ prop (fields this') "foo" = VStr "banana"
       /\ isDirty None this' = false.
Proof.
  destruct (update_sends_changes Sample.datastore_ok Sample.base) as [Hclean _].
  destruct (update_sends_changes Sample.datastore_ok Sample.banana)
    as [_ Hdirty].
  destruct (Hdirty eq_refl) as (Htrace & _ & _ & Hdata & Hok & _).
  destruct (update_sends_changes Sample.datastore_down Sample.banana)
    as [_ Hdown].
  destruct (Hdown eq_refl) as (_ & _ & _ & _ & _ & Hfail).
  split; [exact (Hclean eq_refl)|]. split; [exact Htrace|].
  split; [apply Hdata; repeat split; simpl; auto|].
  split; [reflexivity|].
  split; [exact (Hfail _ eq_refl)|].
  destruct (Hok _ eq_refl) as (this' & Hresult & Hfields & _ & _ & _ & Hclean').
  exists this'. split; [exact Hresult|]. split; [|exact Hclean'].
  rewrite Hfields. reflexivity.
Defined.




(** An undisturbed run holds no successful update. *)
Lemma undisturbed_unsaved key actions : forall this,
  undisturbed key actions this = true -> unsaved actions this = true.
Proof.
  induction actions as [|a rest IH]; intros this; simpl; [reflexivity|].
  intros H. apply andb_true_iff in H as [Hkeeps Hrest].
  rewrite (IH _ Hrest), andb_true_r.
  destruct a as [k v|datastore_update]; [reflexivity | exact Hkeeps].
Qed.



Example banana_then_foo :
  unsaved [Assign "foo" (VStr "foo")] Sample.banana = true
  /\ isDirty None (perform_all [Assign "foo" (VStr "foo")] Sample.banana) = false
  /\ isDirty (Some "foo") (perform_all [Assign "foo" (VStr "foo")] Sample.banana) = false.
Proof. repeat split. Qed.


End BaseFacts.

(** * Further properties of lib/buildFactory.js *)

(** ** Commit resolution through source control *)

Lemma getCommitSha_full w job modelConfig userFactory_get user p token :
  truthy (prop modelConfig "sha") = false ->
  UserFactory_getInstance w = inr userFactory_get ->
  userFactory_get (prop modelConfig "username") = Resolved (Some user) ->
  pipeline job = Resolved (Some p) ->
  unsealToken user = Resolved token ->
  getCommitSha w job modelConfig
  = ([UserFactoryGet (prop modelConfig "username"); UnsealToken;
      ScmGetCommitSha (scmUrl p) token],
     scmPlugin_getCommitSha w (scmUrl p) token).
Proof.
  intros Hsha Hfactory Huser Hpipeline Htoken.
  unfold getCommitSha. rewrite Hsha, Hfactory, Huser, Hpipeline. simpl.
  rewrite Htoken. simpl.
  destruct (scmPlugin_getCommitSha w (scmUrl p) token); reflexivity.
Qed.

(** Every event of the commit resolution, with the state that led to it. *)
Lemma getCommitSha_events w job modelConfig ev :
  In ev (fst (getCommitSha w job modelConfig)) ->
  truthy (prop modelConfig "sha") = false
  /\ exists userFactory_get,
       UserFactory_getInstance w = inr userFactory_get
       /\ (ev = UserFactoryGet (prop modelConfig "username")
           \/ exists user p,
                userFactory_get (prop modelConfig "username") = Resolved (Some user)
                /\ pipeline job = Resolved (Some p)
                /\ (ev = UnsealToken
                    \/ exists token,
                         unsealToken user = Resolved token
                         /\ ev = ScmGetCommitSha (scmUrl p) token)).
Proof.
  unfold getCommitSha.
  destruct (truthy (prop modelConfig "sha")); [intros []|].
  destruct (UserFactory_getInstance w) as [e|userFactory_get]; [intros []|].
  intros Hin. split; [reflexivity|]. exists userFactory_get. split; [reflexivity|].
  revert Hin.
  destruct (userFactory_get _) as [[user|]|e], (pipeline job) as [[p|]|e'];
    simpl; try (intros [<-|[]]; left; reflexivity).
  destruct (unsealToken user) as [token|e] eqn:Htoken; simpl.
  - intros [<-|[<-|[<-|[]]]]; [left; reflexivity| |];
      right; exists user, p; repeat split; eauto.
  - intros [<-|[<-|[]]]; [left; reflexivity|].
    right; exists user, p; repeat split; eauto.
Qed.

Lemma create_resolution_event w config t r ev :
  create w config = inr (t, r) ->
  In ev t -> is_resolution ev = true ->
  exists factory_get job,
    JobFactory_getInstance w = inr factory_get
    /\ factory_get (prop config "jobId") = Resolved (Some job)
    /\ In ev (fst (getCommitSha w job (initial_modelConfig (Date_now w) config))).
Proof.
  intros Hrun Hin Hev.
  destruct (create_cases _ _ _ _ Hrun) as (factory_get & Hfactory & Hcases).
  simpl in Hcases. exists factory_get.
  destruct (factory_get (prop config "jobId")) as [[job|]|e] eqn:Hjob.
  2,3: destruct Hcases as [-> _]; destruct Hin as [<-|[]]; discriminate Hev.
  exists job. split; [exact Hfactory|]. split; [reflexivity|].
  destruct (getCommitSha w job _) as [ts [sha|e]]; simpl.
  2: { destruct Hcases as [-> _]. destruct Hin as [<-|Hin]; [discriminate Hev | exact Hin]. }
  assert (forall tail, (forall x, In x tail -> is_resolution x = false) ->
                       t = (JobFactoryGet (prop config "jobId") :: ts ++ tail)%list ->
                       In ev ts) as Hsplit.
  { intros tail Htail ->. destruct Hin as [<-|Hin]; [discriminate Hev|].
    apply in_app_or in Hin as [Hin|Hin]; [exact Hin|].
    rewrite (Htail _ Hin) in Hev. discriminate Hev. }
  destruct (assemble _ job _ sha) as [e|final].
  { destruct Hcases as [-> _]. destruct Hin as [<-|Hin]; [discriminate Hev | exact Hin]. }
  destruct (BaseFactory_create w final); destruct Hcases as [Ht _].
  - apply (Hsplit [BaseFactoryCreate final; BuildStart]); [|exact Ht].
    intros x [<-|[<-|[]]]; reflexivity.
  - apply (Hsplit [BaseFactoryCreate final]); [|exact Ht].
    intros x [<-|[]]; reflexivity.
Qed.

(** X2: [create] unseals a token only after it found both the user and the
    job's pipeline, and it asks source control only with that user's
    unsealed token and that pipeline's url, and only when no truthy sha
    was supplied. *)
Theorem create_unseals_for_known_user w config t r :
  create w config = inr (t, r) ->
  forall ev,
    In ev t -> ev = UnsealToken \/ (exists u token, ev = ScmGetCommitSha u token) ->
    truthy (prop config "sha") = false
    /\ exists factory_get job userFactory_get user p,
         JobFactory_getInstance w = inr factory_get
         /\ factory_get (prop config "jobId") = Resolved (Some job)
         /\ UserFactory_getInstance w = inr userFactory_get
         /\ userFactory_get (prop config "username") = Resolved (Some user)
         /\ pipeline job = Resolved (Some p)
         /\ (forall u token,
               ev = ScmGetCommitSha u token ->
               unsealToken user = Resolved token /\ u = scmUrl p).
Proof.
  intros Hrun ev Hin Hkind.
  assert (is_resolution ev = true) as Hev
    by (destruct Hkind as [->|(u & token & ->)]; reflexivity).
  destruct (create_resolution_event _ _ _ _ _ Hrun Hin Hev)
    as (factory_get & job & Hfactory & Hjob & Hts).
  destruct (getCommitSha_events _ _ _ _ Hts)
    as (Hsha & userFactory_get & Huf & Hcase).
  rewrite initial_modelConfig_other in Hsha by congruence.
  rewrite initial_modelConfig_other in Hcase by congruence.
  split; [exact Hsha|].
  destruct Hcase as [->|(user & p & Huser & Hp & Hcase)].
  { destruct Hkind as [[=]|(? & ? & [=])]. }
  exists factory_get, job, userFactory_get, user, p.
  repeat match goal with |- _ /\ _ => split end; try assumption.
  intros u token ->.
  destruct Hcase as [[=]|(token' & Htoken & [= -> ->])]. auto.
Qed.

Lemma create_unseals_for_known_user_witness :
  exists t r,
    create (Sample.env (Some Sample.piped_job) (Some Sample.user)) (Sample.params None)
    = inr (t, r)
    /\ In (ScmGetCommitSha (VStr "git@example.com:org/repo.git") (VStr "token")) t
    /\ exists user p,
         pipeline Sample.piped_job = Resolved (Some p)
         /\ unsealToken user = Resolved (VStr "token")
         /\ VStr "git@example.com:org/repo.git" = scmUrl p.
Proof.
  eexists _, _. split; [reflexivity|].
  assert (In (ScmGetCommitSha (VStr "git@example.com:org/repo.git") (VStr "token"))
             [JobFactoryGet (VStr "job1"); UserFactoryGet (VStr "me"); UnsealToken;
              ScmGetCommitSha (VStr "git@example.com:org/repo.git") (VStr "token")])
    as Hin by (simpl; auto).
  split; [simpl; auto|].
  destruct (create_unseals_for_known_user
              (Sample.env (Some Sample.piped_job) (Some Sample.user)) (Sample.params None)
              _ _ eq_refl
              (ScmGetCommitSha (VStr "git@example.com:org/repo.git") (VStr "token")))
    as (_ & factory_get & job & userFactory_get & user & p
        & Hfactory & Hjob & _ & _ & Hp & Hscm).
  - simpl. auto.
  - right. eauto.
  - injection Hfactory as <-. injection Hjob as <-.
    destruct (Hscm _ _ eq_refl) as [Htoken Hurl].
    exists user, p. auto.
Defined.

(** X3: the commit resolution rejects only with "User does not exist",
    with "Pipeline does not exist", or with the error of a collaborator,
    unchanged: of [UserFactory.getInstance()], of the user lookup, of the
    job's pipeline promise, of the token unsealing, or of the source
    control plugin. *)
Theorem getCommitSha_rejections w job modelConfig e :
  snd (getCommitSha w job modelConfig) = Rejected e ->
  e = Error "User does not exist"
  \/ e = Error "Pipeline does not exist"
  \/ UserFactory_getInstance w = inl e
  \/ (exists userFactory_get,
        UserFactory_getInstance w = inr userFactory_get
        /\ (userFactory_get (prop modelConfig "username") = Rejected e
            \/ pipeline job = Rejected e
            \/ exists user p,
                 userFactory_get (prop modelConfig "username") = Resolved (Some user)
                 /\ pipeline job = Resolved (Some p)
                 /\ (unsealToken user = Rejected e
                     \/ exists token,
                          unsealToken user = Resolved token
                          /\ scmPlugin_getCommitSha w (scmUrl p) token = Rejected e))).
Proof.
  unfold getCommitSha.
  destruct (truthy (prop modelConfig "sha")); [discriminate|].
  destruct (UserFactory_getInstance w) as [e0|userFactory_get];
    [intros [= <-]; auto|].
  destruct (userFactory_get _) as [[user|]|e1] eqn:Huser,
           (pipeline job) as [[p|]|e2] eqn:Hp; simpl;
    try (intros [= <-]; solve [auto | right; right; right; eauto 6]).
  - destruct (unsealToken user) as [token|e3] eqn:Htoken; simpl.
    + intros Hscm. right; right; right. exists userFactory_get.
      split; [reflexivity|]. right; right. exists user, p. eauto 8.
    + intros [= <-]. right; right; right. exists userFactory_get.
      split; [reflexivity|]. right; right. exists user, p. eauto 8.
  - destruct (pipeline_settles_first w); intros [= <-];
      right; right; right; eauto 6.
Qed.

Lemma getCommitSha_rejections_witness :
  snd (getCommitSha (Sample2.user_lookup_down Sample.piped_job) Sample.piped_job
         (Sample.params None))
  = Rejected (Error "datastore down")
  /\ exists userFactory_get,
       UserFactory_getInstance (Sample2.user_lookup_down Sample.piped_job)
       = inr userFactory_get
       /\ userFactory_get (VStr "me") = Rejected (Error "datastore down").
Proof.
  split; [reflexivity|].
  destruct (getCommitSha_rejections (Sample2.user_lookup_down Sample.piped_job)
              Sample.piped_job (Sample.params None) _ eq_refl)
    as [H|[H|[H|(userFactory_get & Hfactory & H)]]]; try discriminate H.
  exists userFactory_get. split; [exact Hfactory|].
  injection Hfactory as <-. reflexivity.
Defined.

(** X4: a lookup that fails wins over a record that is missing.  When the
    job's pipeline promise rejects and the user lookup resolves, with a
    user or with none, the resolution rejects with the pipeline's error
    and "User does not exist" is not raised; when the user lookup rejects
    and the pipeline promise resolves, with a pipeline or with none, it
    rejects with the lookup's error.  In both cases the user lookup is the
    only call. *)
Theorem getCommitSha_failure_before_absence w job modelConfig userFactory_get e :
  truthy (prop modelConfig "sha") = false ->
  UserFactory_getInstance w = inr userFactory_get ->
  (pipeline job = Rejected e /\
   exists user, userFactory_get (prop modelConfig "username") = Resolved user)
  \/ (userFactory_get (prop modelConfig "username") = Rejected e /\
      exists p, pipeline job = Resolved p) ->
  getCommitSha w job modelConfig
  = ([UserFactoryGet (prop modelConfig "username")], Rejected e).
Proof.
  intros Hsha Hfactory Hcase. unfold getCommitSha. rewrite Hsha, Hfactory.
  destruct Hcase as [[Hp [user Huser]]|[Huser [p Hp]]]; rewrite Huser, Hp; reflexivity.
Qed.

Lemma getCommitSha_failure_before_absence_witness :
  getCommitSha (Sample2.user_lookup_down Sample.orphan_job) Sample.orphan_job
    (Sample.params None)
  = ([UserFactoryGet (VStr "me")], Rejected (Error "datastore down")).
Proof.
  apply (getCommitSha_failure_before_absence
           (Sample2.user_lookup_down Sample.orphan_job) Sample.orphan_job
           (Sample.params None) _ (Error "datastore down") eq_refl eq_refl).
  right. split; [reflexivity|]. eexists. reflexivity.
Defined.

(** ** The calls of [create], in order *)

Lemma getCommitSha_calls_prefix w job modelConfig :
  exists u token,
    fst (getCommitSha w job modelConfig)
    `prefix_of` [UserFactoryGet (prop modelConfig "username"); UnsealToken;
                 ScmGetCommitSha u token].
Proof.
  unfold getCommitSha.
  destruct (truthy _); [exists VUndefined, VUndefined; apply prefix_nil|].
  destruct (UserFactory_getInstance w) as [e|userFactory_get];
    [exists VUndefined, VUndefined; apply prefix_nil|].
  destruct (userFactory_get _) as [[user|]|e], (pipeline job) as [[p|]|e'];
    simpl; try (exists VUndefined, VUndefined; eexists [_; _]; reflexivity).
  destruct (unsealToken user) as [token|e]; simpl.
  - exists (scmUrl p), token. reflexivity.
  - exists VUndefined, VUndefined. eexists [_]. reflexivity.
Qed.

(** X5: the collaborator calls of [create] follow one order.  The job
    lookup, with the [jobId] of the argument, comes first and is made in
    every run; then come, as far as the commit resolution gets, the user
    lookup with the [username] of the argument, the token unsealing and
    the source control lookup; then, at most, one call of the base
    factory's [create] followed by at most one [start]. *)
Theorem create_call_order w config t r :
  create w config = inr (t, r) ->
  exists resolution tail,
    t = (JobFactoryGet (prop config "jobId") :: resolution ++ tail)%list
    /\ (exists u token,
          resolution `prefix_of` [UserFactoryGet (prop config "username"); UnsealToken;
                                  ScmGetCommitSha u token])
    /\ (tail = []
        \/ exists final,
             tail = [BaseFactoryCreate final]
             \/ tail = [BaseFactoryCreate final; BuildStart]).
Proof.
  intros Hrun.
  destruct (create_cases _ _ _ _ Hrun) as (factory_get & _ & Hcases).
  simpl in Hcases.
  destruct (factory_get (prop config "jobId")) as [[job|]|e].
  2,3: destruct Hcases as [-> _]; exists [], [];
    (split; [reflexivity|]); (split; [|left; reflexivity]);
    exists VUndefined, VUndefined; apply prefix_nil.
  destruct (getCommitSha_calls_prefix w job (initial_modelConfig (Date_now w) config))
    as (u & token & Hprefix).
  rewrite initial_modelConfig_other in Hprefix by congruence.
  destruct (getCommitSha w job _) as [ts [sha|e]]; simpl in Hprefix.
  2: { destruct Hcases as [-> _]. exists ts, []. rewrite app_nil_r. eauto 6. }
  destruct (assemble _ job _ sha) as [e|final].
  { destruct Hcases as [-> _]. exists ts, []. rewrite app_nil_r. eauto 6. }
  destruct (BaseFactory_create w final); destruct Hcases as [-> _];
    eexists ts, _; (split; [reflexivity|]); split; eauto.
Qed.

Lemma create_call_order_witness :
  exists t r final,
    create (Sample.env (Some Sample.piped_job) (Some Sample.user)) (Sample.params None)
    = inr (t, r)
    /\ t = [JobFactoryGet (VStr "job1"); UserFactoryGet (VStr "me"); UnsealToken;
            ScmGetCommitSha (VStr "git@example.com:org/repo.git") (VStr "token");
            BaseFactoryCreate final; BuildStart].
Proof.
  destruct (create_call_order
              (Sample.env (Some Sample.piped_job) (Some Sample.user)) (Sample.params None)
              _ _ eq_refl) as (resolution & tail & Ht & _).
  eexists _, _, _. split; reflexivity.
Defined.

Lemma getCommitSha_never_starts w job modelConfig :
  List.filter is_start (fst (getCommitSha w job modelConfig)) = [].
Proof.
  unfold getCommitSha.
  destruct (truthy _); [reflexivity|].
  destruct (UserFactory_getInstance w) as [e|userFactory_get]; [reflexivity|].
  destruct (userFactory_get _) as [[user|]|e], (pipeline job) as [[p|]|e'];
    simpl; try reflexivity.
  destruct (unsealToken user); reflexivity.
Qed.

(** X6: [start] is invoked only on the build that the base factory's
    [create] resolved with, and [create] settles as that [start] does: when
    [start] rejects, [create] rejects with the same error although the
    build was persisted, and no further call is made.  When the base
    factory's [create] rejects, [create] rejects with that error and
    [start] is not invoked. *)
Theorem create_starts_what_it_persisted w config t r final :
  create w config = inr (t, r) ->
  In final (persisted t) ->
  match BaseFactory_create w final with
  | Resolved build =>
      r = start build /\ last t = Some BuildStart
      /\ List.filter is_start t = [BuildStart]
  | Rejected e =>
      r = Rejected e /\ last t = Some (BaseFactoryCreate final)
      /\ List.filter is_start t = []
  end.
Proof.
  intros Hrun Hin.
  destruct (create_persisted _ _ _ _ _ Hrun Hin)
    as (factory_get & job & ts & sha & Hfactory & Hjob & Hsha & Hassemble & _).
  destruct (create_cases _ _ _ _ Hrun) as (factory_get' & Hfactory' & Hcases).
  rewrite Hfactory in Hfactory'. injection Hfactory' as <-.
  simpl in Hcases. rewrite Hjob, Hsha, Hassemble in Hcases.
  pose proof (getCommitSha_never_starts w job
                (initial_modelConfig (Date_now w) config)) as Hquiet.
  rewrite Hsha in Hquiet. simpl in Hquiet.
  destruct (BaseFactory_create w final) as [build|e]; destruct Hcases as [-> ->].
  - split; [reflexivity|]. split.
    + replace (JobFactoryGet (prop config "jobId")
                 :: ts ++ [BaseFactoryCreate final; BuildStart])%list
        with ((JobFactoryGet (prop config "jobId") :: ts ++ [BaseFactoryCreate final])
                ++ [BuildStart])%list
        by (simpl; rewrite <- app_assoc; reflexivity).
      apply last_snoc.
    + simpl. rewrite List.filter_app, Hquiet. reflexivity.
  - split; [reflexivity|]. split.
    + rewrite app_comm_cons. apply last_snoc.
    + simpl. rewrite List.filter_app, Hquiet. reflexivity.
Qed.

Lemma create_starts_what_it_persisted_witness :
  exists t final,
    create Sample2.start_fails (Sample.params None)
    = inr (t, Rejected (Error "executor unavailable"))
    /\ persisted t = [final]
    /\ last t = Some BuildStart.
Proof.
  destruct (create_persisted Sample2.start_fails (Sample.params None) _ _ _ eq_refl
              (or_introl eq_refl)) as (_ & _ & _ & _ & _ & _ & _ & _ & Hone).
  eexists _, _. split; [reflexivity|]. split; [exact Hone|].
  pose proof (create_starts_what_it_persisted Sample2.start_fails (Sample.params None)
                _ _ _ eq_refl (or_introl eq_refl)) as Hstart.
  simpl in Hstart. apply Hstart.
Defined.

(** ** What reaches the base factory *)

Lemma initial_modelConfig_lookup number config k :
  k ≠ "status" -> k ≠ "number" -> k ≠ "createTime" -> k ≠ "cause" ->
  initial_modelConfig number config !! k = config !! k.
Proof.
  intros. rewrite initial_modelConfig_eq.
  rewrite !lookup_insert_ne by congruence. reflexivity.
Qed.

(** X7: [create] sets seven properties of the model configuration:
    [cause], [createTime], [number], [status], [sha], [container] and
    [steps].  Every other property of its argument, present or not,
    reaches the base factory as the caller gave it; so do [jobId] and
    [username]. *)
Theorem create_passes_other_properties w config t r final :
  create w config = inr (t, r) ->
  In final (persisted t) ->
  (forall k,
     ~ In k ["cause"; "createTime"; "number"; "status"; "sha"; "container"; "steps"] ->
     final !! k = config !! k)
  /\ final !! "jobId" = config !! "jobId"
  /\ final !! "username" = config !! "username"
  /\ Forall (fun k => is_Some (final !! k))
       ["cause"; "createTime"; "number"; "status"; "sha"; "container"; "steps"].
Proof.
  intros Hrun Hin.
  destruct (create_persisted _ _ _ _ _ Hrun Hin)
    as (_ & job & _ & sha & _ & _ & _ & Hassemble & _).
  destruct (assemble_inv _ _ _ _ _ Hassemble) as (? & ? & ? & ? & _ & _ & _ & _ & ->).
  assert (forall k,
            ~ In k ["cause"; "createTime"; "number"; "status"; "sha"; "container"; "steps"] ->
            (<["steps" := VArr (step (VStr "sd-setup") :: List.map step x2
                                  ++ [step (VStr "sd-teardown")])]>
               (<["container" := x0]>
                  (<["sha" := sha]> (initial_modelConfig (Date_now w) config)))
             : gmap string value) !! k = config !! k) as Hother.
  { intros k Hk. simpl in Hk.
    rewrite !lookup_insert_ne by (intros <-; tauto).
    apply initial_modelConfig_lookup; intros ->; tauto. }
  split; [exact Hother|].
  split; [apply Hother; simpl; intuition discriminate|].
  split; [apply Hother; simpl; intuition discriminate|].
  rewrite initial_modelConfig_eq.
  repeat constructor; simplify_map_eq; eauto.
Qed.

Lemma create_passes_other_properties_witness :
  exists t r final,
    create Sample.node_env Sample.with_sha = inr (t, r)
    /\ persisted t = [final]
    /\ final !! "jobId" = Some (VStr "job1")
    /\ final !! "username" = Some (VStr "me")
    /\ final !! "pipelineId" = None.
Proof.
  destruct (create_persisted Sample.node_env Sample.with_sha _ _ _ eq_refl
              (or_introl eq_refl)) as (_ & _ & _ & _ & _ & _ & _ & _ & Hone).
  destruct (create_passes_other_properties Sample.node_env Sample.with_sha _ _ _ eq_refl
              (or_introl eq_refl)) as (Hother & HjobId & Husername & _).
  eexists _, _, _. split; [reflexivity|]. split; [exact Hone|].
  split; [exact HjobId|]. split; [exact Husername|].
  apply Hother. simpl. intuition discriminate.
Defined.

(** ** When the steps can be assembled *)

Lemma get_nullish v key : nullish v = true -> get v key = inl TypeError.
Proof. destruct v; simpl; congruence. Qed.

Lemma get_defined v key : nullish v = false -> exists x, get v key = inr x.
Proof.
  destruct v; simpl; try congruence; intros _;
    repeat match goal with
           | |- context [if ?b then _ else _] => destruct b
           | |- context [match ?x with Some _ => _ | None => _ end] => destruct x
           end; eauto.
Qed.

Lemma mapE_step_of commands :
  (exists steps, mapE step_of commands = inr steps)
  <-> forallb (fun c => negb (nullish c)) commands = true.
Proof.
  induction commands as [|c rest IH]; simpl.
  - split; eauto.
  - unfold step_of at 1. destruct (nullish c) eqn:Hc; simpl.
    + rewrite (get_nullish _ _ Hc). simpl. split; [intros [? [=]] | discriminate].
    + destruct (get_defined c "name" Hc) as [name ->]. simpl.
      rewrite <- IH. split.
      * intros [steps Hsteps].
        destruct (mapE step_of rest); [discriminate Hsteps | eauto].
      * intros [steps ->]. simpl. eauto.
Qed.

Lemma assemble_runnable number job modelConfig sha :
  (exists final, assemble number job modelConfig sha = inr final)
  <-> runnable (permutations job) = true.
Proof.
  unfold assemble, runnable. rewrite permutation_index_zero. simpl toString.
  change (number_toString 0) with "0".
  destruct (get (permutations job) "0") as [e|permutation]; simpl.
  { split; [intros [? [=]] | discriminate]. }
  destruct (nullish permutation) eqn:Hp; simpl.
  { rewrite (get_nullish _ _ Hp). simpl. split; [intros [? [=]] | discriminate]. }
  destruct (get_defined permutation "image" Hp) as [image ->].
  destruct (get_defined permutation "commands" Hp) as [commands ->]. simpl.
  destruct commands as [| | | | |commands|]; simpl;
    try (split; [intros [? [=]] | discriminate]).
  rewrite <- mapE_step_of. split.
  - intros [final Hfinal].
    destruct (mapE step_of commands); [discriminate Hfinal | eauto].
  - intros [steps ->]. simpl. eauto.
Qed.

(** X8: once the job is fetched and the sha resolved, [create] reaches
    the base factory exactly when the job's first permutation can be
    read: [job.permutations[0]] is neither [null] nor [undefined], its
    [commands] is an array, and no command is [null] or [undefined].
    Otherwise it rejects with a [TypeError] and persists nothing.  A
    command without a [name] is no error: its step is named [undefined]. *)
Theorem create_persists_iff_runnable w config t r factory_get job sha :
  create w config = inr (t, r) ->
  JobFactory_getInstance w = inr factory_get ->
  factory_get (prop config "jobId") = Resolved (Some job) ->
  snd (getCommitSha w job (initial_modelConfig (Date_now w) config)) = Resolved sha ->
  (runnable (permutations job) = true ->
   exists final, persisted t = [final] /\ prop final "sha" = sha)
  /\ (runnable (permutations job) = false ->
      persisted t = [] /\ r = Rejected TypeError).
Proof.
  intros Hrun Hfactory Hjob Hsha.
  destruct (create_cases _ _ _ _ Hrun) as (factory_get' & Hfactory' & Hcases).
  rewrite Hfactory in Hfactory'. injection Hfactory' as <-.
  simpl in Hcases. rewrite Hjob in Hcases.
  pose proof (getCommitSha_persists_nothing w job
                (initial_modelConfig (Date_now w) config)) as Hquiet.
  pose proof (assemble_runnable (Date_now w) job
                (initial_modelConfig (Date_now w) config) sha) as Hiff.
  destruct (getCommitSha w job _) as [ts [sha'|e]]; simpl in Hsha, Hquiet;
    [injection Hsha as ->|discriminate Hsha].
  destruct (assemble _ job _ sha) as [e|final] eqn:Hassemble.
  - split.
    + intros Hok. apply Hiff in Hok as [final [=]].
    + intros _. destruct Hcases as [-> ->]. simpl. split; [exact Hquiet|].
      f_equal. eauto using assemble_throws.
  - split.
    + intros _. exists final. split; [|eauto using assemble_sha].
      destruct (BaseFactory_create w final); destruct Hcases as [-> _];
        simpl; rewrite persisted_app, Hquiet; reflexivity.
    + intros Hbad. assert (runnable (permutations job) = true) as Hok
        by (apply Hiff; eauto). congruence.
Qed.

Lemma create_persists_iff_runnable_witness :
  (exists t,
     create (Sample.env (Some Sample2.broken_job) None) Sample.with_sha
     = inr (t, Rejected TypeError)
     /\ persisted t = [])
  /\ (exists t r final,
        create (Sample.env (Some Sample2.nameless_job) None) Sample.with_sha = inr (t, r)
        /\ persisted t = [final]
        /\ prop final "sha" = VStr "abc123"
        /\ prop final "steps"
           = VArr [step (VStr "sd-setup"); step VUndefined; step (VStr "sd-teardown")]).
Proof.
  split.
  - eexists. split; [reflexivity|].
    apply (create_persists_iff_runnable
             (Sample.env (Some Sample2.broken_job) None) Sample.with_sha
             _ _ _ Sample2.broken_job (VStr "abc123") eq_refl eq_refl eq_refl eq_refl).
    reflexivity.
  - destruct (create_persists_iff_runnable
                (Sample.env (Some Sample2.nameless_job) None) Sample.with_sha
                _ _ _ Sample2.nameless_job (VStr "abc123") eq_refl eq_refl eq_refl eq_refl)
      as [Hok _].
    destruct (Hok eq_refl) as (final & Hone & Hsha).
    eexists _, _, final. split; [reflexivity|]. split; [exact Hone|].
    split; [exact Hsha|].
    injection Hone as <-. reflexivity.
Defined.

(** X1: when no truthy sha is supplied and the job, the user and the
    pipeline exist, [create] asks source control once, with the
    pipeline's [scmUrl] and the user's unsealed token.  What source
    control answers becomes the [sha] of the persisted configuration; when
    it rejects, [create] rejects with the same error after these four
    calls and persists nothing. *)
Theorem create_resolves_sha_through_scm
  w config factory_get job userFactory_get user p token :
  JobFactory_getInstance w = inr factory_get ->
  factory_get (prop config "jobId") = Resolved (Some job) ->
  truthy (prop config "sha") = false ->
  UserFactory_getInstance w = inr userFactory_get ->
  userFactory_get (prop config "username") = Resolved (Some user) ->
  pipeline job = Resolved (Some p) ->
  unsealToken user = Resolved token ->
  exists t r,
    create w config = inr (t, r)
    /\ resolution_calls t
       = [UserFactoryGet (prop config "username"); UnsealToken;
          ScmGetCommitSha (scmUrl p) token]
    /\ (forall e,
          scmPlugin_getCommitSha w (scmUrl p) token = Rejected e ->
          r = Rejected e /\ persisted t = []
          /\ t = [JobFactoryGet (prop config "jobId");
                  UserFactoryGet (prop config "username"); UnsealToken;
                  ScmGetCommitSha (scmUrl p) token])
    /\ (forall sha,
          scmPlugin_getCommitSha w (scmUrl p) token = Resolved sha ->
          runnable (permutations job) = true ->
          exists final, persisted t = [final] /\ prop final "sha" = sha).
Proof.
  intros Hfactory Hjob Hsha Huf Huser Hp Htoken.
  assert (getCommitSha w job (initial_modelConfig (Date_now w) config)
          = ([UserFactoryGet (prop config "username"); UnsealToken;
              ScmGetCommitSha (scmUrl p) token],
             scmPlugin_getCommitSha w (scmUrl p) token)) as Hresolution.
  { rewrite (getCommitSha_full w job _ userFactory_get user p token);
      rewrite ?initial_modelConfig_other by congruence; auto. }
  destruct (create w config) as [e|[t r]] eqn:Hrun.
  { unfold create in Hrun. rewrite Hfactory in Hrun. discriminate Hrun. }
  exists t, r. split; [reflexivity|].
  destruct (create_cases _ _ _ _ Hrun) as (factory_get' & Hfactory' & Hcases).
  rewrite Hfactory in Hfactory'. injection Hfactory' as <-.
  simpl in Hcases. rewrite Hjob, Hresolution in Hcases.
  split; [|split].
  - destruct (scmPlugin_getCommitSha w (scmUrl p) token) as [sha|e].
    + destruct (assemble _ job _ sha) as [e|final]; [destruct Hcases as [-> _]; reflexivity|].
      destruct (BaseFactory_create w final); destruct Hcases as [-> _]; reflexivity.
    + destruct Hcases as [-> _]. reflexivity.
  - intros e He. rewrite He in Hcases. destruct Hcases as [-> ->]. auto.
  - intros sha Hscm Hok. rewrite Hscm in Hcases.
    apply (assemble_runnable (Date_now w) job
             (initial_modelConfig (Date_now w) config) sha) in Hok as [final Hassemble].
    rewrite Hassemble in Hcases.
    exists final. split; [|eauto using assemble_sha].
    destruct (BaseFactory_create w final); destruct Hcases as [-> _]; reflexivity.
Qed.

Lemma create_resolves_sha_through_scm_witness :
  exists t r final,
    create (Sample.env (Some Sample.piped_job) (Some Sample.user)) (Sample.params None)
    = inr (t, r)
    /\ resolution_calls t
       = [UserFactoryGet (VStr "me"); UnsealToken;
          ScmGetCommitSha (VStr "git@example.com:org/repo.git") (VStr "token")]
    /\ persisted t = [final]
    /\ prop final "sha" = VStr "deadbeef".
Proof.
  destruct (create_resolves_sha_through_scm
              (Sample.env (Some Sample.piped_job) (Some Sample.user)) (Sample.params None)
              _ Sample.piped_job _ Sample.user _ (VStr "token")
              eq_refl eq_refl eq_refl eq_refl eq_refl eq_refl eq_refl)
    as (t & r & Hrun & Hcalls & _ & Hsha).
  destruct (Hsha (VStr "deadbeef") eq_refl eq_refl) as (final & Hone & Hfinal).
  exists t, r, final. auto.
Defined.

(** ** The singleton, over several calls *)

Lemma getInstance_calls_app base_requires configs1 configs2 instance :
  getInstance_calls base_requires (configs1 ++ configs2) instance
  = let '(rs1, instance1) := getInstance_calls base_requires configs1 instance in
    let '(rs2, instance2) := getInstance_calls base_requires configs2 instance1 in
    ((rs1 ++ rs2)%list, instance2).
Proof.
  revert instance. induction configs1 as [|config rest IH]; intros instance; simpl.
  - destruct (getInstance_calls base_requires configs2 instance). reflexivity.
  - destruct (getInstance base_requires config instance) as [r instance'].
    rewrite IH.
    destruct (getInstance_calls base_requires rest instance') as [rs1 instance1].
    destruct (getInstance_calls base_requires configs2 instance1). reflexivity.
Qed.

Lemma getInstance_incomplete base_requires config :
  incomplete config = true ->
  getInstance base_requires config None = (inl (Error (first_missing config)), None).
Proof.
  unfold incomplete, first_missing, getInstance. simpl.
  destruct (lacks config "executor"); [reflexivity|].
  destruct (lacks config "uiUri"); [reflexivity|].
  destruct (lacks config "scmPlugin"); [reflexivity|discriminate].
Qed.

Lemma getInstance_calls_incomplete base_requires configs :
  forallb incomplete configs = true ->
  getInstance_calls base_requires configs None
  = (List.map (fun config => inl (Error (first_missing config))) configs, None).
Proof.
  induction configs as [|config rest IH]; simpl; [reflexivity|].
  intros H. apply andb_true_iff in H as [Hconfig Hrest].
  rewrite (getInstance_incomplete _ _ Hconfig), (IH Hrest). reflexivity.
Qed.

(** X9: calls that fail leave the module as it was.  After any number of
    calls whose configuration lacks a collaborator, each of which throws
    the message of the first one missing (executor, then uiUri, then scm
    plugin), the first call with a complete configuration that the base
    factory accepts constructs the instance: it holds the executor and
    the uiUri of that configuration and no apiUri or tokenGen.  Every
    later call returns it. *)
Theorem getInstance_after_failures base_requires failed first later :
  forallb incomplete failed = true ->
  incomplete (Some first) = false ->
  base_requires (Some first) = None ->
  getInstance_calls base_requires (failed ++ Some first :: later) None
  = ((List.map (fun config => inl (Error (first_missing config))) failed
      ++ inr (new_BuildFactory first)
      :: List.map (fun _ => inr (new_BuildFactory first)) later)%list,
     Some (new_BuildFactory first))
  /\ executor (new_BuildFactory first) = prop first "executor"
  /\ truthy (executor (new_BuildFactory first)) = true
  /\ uiUri (new_BuildFactory first) = prop first "uiUri"
  /\ truthy (uiUri (new_BuildFactory first)) = true
  /\ apiUri (new_BuildFactory first) = VNull
  /\ tokenGen (new_BuildFactory first) = VNull.
Proof.
  intros Hfailed Hfirst Hbase.
  unfold incomplete in Hfirst. simpl in Hfirst.
  apply orb_false_iff in Hfirst as [Hfirst Hscm].
  apply orb_false_iff in Hfirst as [Hexecutor Hui].
  apply negb_false_iff in Hexecutor, Hui, Hscm.
  repeat match goal with |- _ /\ _ => split end; try reflexivity; try assumption.
  rewrite getInstance_calls_app, (getInstance_calls_incomplete _ _ Hfailed).
  simpl. unfold getInstance at 1. simpl.
  rewrite Hexecutor, Hui, Hscm, Hbase. simpl.
  rewrite getInstance_calls_existing. reflexivity.
Qed.

Lemma getInstance_after_failures_witness :
  getInstance_calls Sample.base_requires
    [None; Some (delete "uiUri" Sample.factory_config); Some Sample.factory_config;
     Some ∅] None
  = ([inl (Error "No executor provided to BuildFactory");
      inl (Error "No uiUri provided to BuildFactory");
      inr (new_BuildFactory Sample.factory_config);
      inr (new_BuildFactory Sample.factory_config)],
     Some (new_BuildFactory Sample.factory_config)).
Proof.
  destruct (getInstance_after_failures Sample.base_requires
              [None; Some (delete "uiUri" Sample.factory_config)]
              Sample.factory_config [Some ∅]) as [Hcalls _];
    [vm_compute; reflexivity | reflexivity | reflexivity |].
  exact Hcalls.
Defined.

(** ** What a Build is constructed with *)

Lemma merged_primitive existing v :
  Hoek.is_object v = false ->
  Hoek.merged existing v
  = match v with
    | VUndefined | VNull => None
    | _ => Some v
    end.
Proof. destruct v; simpl; congruence. Qed.

(** With options that hold no object, the full merge is the replacement
    that [create] is modelled with. *)
Lemma Hoek_applyToDefaults_primitive defaults options :
  forallb (fun kv => negb (Hoek.is_object (snd kv))) options = true ->
  Hoek.applyToDefaults defaults options = applyToDefaults defaults options.
Proof.
  unfold Hoek.applyToDefaults, applyToDefaults.
  revert defaults. induction options as [|[k v] rest IH]; intros defaults; simpl;
    [reflexivity|].
  intros H. apply andb_true_iff in H as [Hv Hrest]. apply negb_true_iff in Hv.
  rewrite (merged_primitive _ _ Hv).
  destruct v; simpl in *; try discriminate Hv; apply IH, Hrest.
Qed.

Lemma initial_modelConfig_full_merge number config :
  Hoek.applyToDefaults config
    [("cause", VStr ("Started by user " +:+ toString (prop config "username")));
     ("createTime", VStr (Date.toISOString number));
     ("number", VNum number);
     ("status", VStr "QUEUED")]
  = initial_modelConfig number config.
Proof. apply Hoek_applyToDefaults_primitive. reflexivity. Qed.

Example Hoek_merge_objects :
  Hoek.merge (VObj [("queue", VStr "slow"); ("name", VStr "docker")])
             (VObj [("name", VStr "k8s"); ("token", VNull); ("tags", VArr [VStr "a"])])
  = VObj [("queue", VStr "slow"); ("name", VStr "k8s"); ("tags", VArr [VStr "a"])].
Proof. reflexivity. Qed.

Lemma createClass_steps this config :
  createClass this config
  = let with_option (k : string) (v : value) (acc : gmap string value) :=
      match Hoek.merged (acc !! k) v with
      | Some x => <[k := x]> acc
      | None => acc
      end in
    with_option "uiUri" (uiUri this)
      (with_option "tokenGen" (tokenGen this)
         (with_option "apiUri" (apiUri this)
            (with_option "executor" (executor this) config))).
Proof. reflexivity. Qed.

Lemma with_option_other (acc : gmap string value) k v k' :
  k ≠ k' ->
  match Hoek.merged (acc !! k) v with
  | Some x => <[k := x]> acc
  | None => acc
  end !! k' = acc !! k'.
Proof.
  intros Hne. destruct (Hoek.merged (acc !! k) v); [|reflexivity].
  by rewrite lookup_insert_ne.
Qed.

Lemma with_option_same (acc : gmap string value) k v :
  match Hoek.merged (acc !! k) v with
  | Some x => <[k := x]> acc
  | None => acc
  end !! k
  = match Hoek.merged (acc !! k) v with
    | Some x => Some x
    | None => acc !! k
    end.
Proof.
  destruct (Hoek.merged (acc !! k) v); [|reflexivity].
  by rewrite lookup_insert_eq.
Qed.

(** X10: the configuration that [createClass] constructs a Build with.
    For a factory as its constructor leaves it (no [apiUri], no
    [tokenGen]): every property of the build data other than [executor]
    and [uiUri] is passed as given, [apiUri] and [tokenGen] included,
    which the factory never supplies; a factory [uiUri] that is a truthy
    primitive replaces that of the data; the factory's truthy [executor]
    is passed when the data holds no object under that name. *)
Theorem createClass_of_new_factory first data :
  truthy (prop first "executor") = true ->
  truthy (prop first "uiUri") = true ->
  (forall k, k ≠ "executor" -> k ≠ "uiUri" ->
             createClass (new_BuildFactory first) data !! k = data !! k)
  /\ createClass (new_BuildFactory first) data !! "apiUri" = data !! "apiUri"
  /\ createClass (new_BuildFactory first) data !! "tokenGen" = data !! "tokenGen"
  /\ (Hoek.is_object (prop first "uiUri") = false ->
      createClass (new_BuildFactory first) data !! "uiUri" = Some (prop first "uiUri"))
  /\ (Hoek.is_object (prop data "executor") = false ->
      createClass (new_BuildFactory first) data !! "executor"
      = Some (prop first "executor")).
Proof.
  intros Hexecutor Hui.
  assert (forall k, k ≠ "executor" -> k ≠ "uiUri" ->
                    createClass (new_BuildFactory first) data !! k = data !! k) as Hother.
  { intros k Hk1 Hk2. rewrite createClass_steps. simpl.
    rewrite with_option_other by congruence.
    rewrite with_option_other by congruence. reflexivity. }
  split; [exact Hother|].
  split; [apply Hother; congruence|].
  split; [apply Hother; congruence|].
  split.
  - intros Hprimitive. rewrite createClass_steps. simpl.
    rewrite with_option_same, (merged_primitive _ _ Hprimitive).
    destruct (prop first "uiUri"); simpl in *; congruence.
  - intros Hdata. rewrite createClass_steps. simpl.
    rewrite with_option_other by congruence.
    rewrite with_option_same.
    unfold prop in Hdata.
    destruct (prop first "executor") eqn:He; simpl in *; try congruence;
      destruct (data !! "executor") as [t|]; simpl in *; try reflexivity;
      rewrite Hdata; reflexivity.
Qed.

Lemma createClass_of_new_factory_witness :
  createClass Sample2.factory (delete "executor" Sample2.build_data) !! "id"
  = Some (VStr "b1")
  /\ createClass Sample2.factory (delete "executor" Sample2.build_data) !! "apiUri"
     = Some (VStr "https://api.example.com")
  /\ createClass Sample2.factory (delete "executor" Sample2.build_data) !! "tokenGen"
     = None
  /\ createClass Sample2.factory (delete "executor" Sample2.build_data) !! "uiUri"
     = Some (VStr "https://ui.example.com")
  /\ createClass Sample2.factory (delete "executor" Sample2.build_data) !! "executor"
     = Some (VObj [("name", VStr "k8s")]).
Proof.
  destruct (createClass_of_new_factory
              (<["executor" := VObj [("name", VStr "k8s")]]> Sample.factory_config)
              (delete "executor" Sample2.build_data))
    as (Hother & Hapi & Htoken & Hui & Hexecutor); [reflexivity | reflexivity |].
  split; [apply (Hother "id"); congruence|].
  split; [exact Hapi|]. split; [exact Htoken|].
  split; [exact (Hui eq_refl)|]. exact (Hexecutor eq_refl).
Defined.

Example createClass_merges_executor :
  createClass Sample2.factory Sample2.build_data !! "executor"
  = Some (VObj [("queue", VStr "slow"); ("name", VStr "k8s")]).
Proof. reflexivity. Qed.

(** ** The order of the listed builds *)

Lemma strictly_ascending_unique l1 : forall l2,
  StronglySorted strictly_ascending l1 ->
  StronglySorted strictly_ascending l2 ->
  Permutation l1 l2 -> l1 = l2.
Proof.
  induction l1 as [|x rest1 IH]; intros l2 Hs1 Hs2 Hperm.
  - apply Permutation_nil in Hperm. congruence.
  - destruct l2 as [|y rest2];
      [apply Permutation_sym, Permutation_nil in Hperm; discriminate Hperm|].
    apply StronglySorted_inv in Hs1 as [Hs1 Hx].
    apply StronglySorted_inv in Hs2 as [Hs2 Hy].
    rewrite Forall_forall in Hx, Hy.
    assert (x = y) as ->.
    { assert (x ∈ y :: rest2) as Hxin by (rewrite <- Hperm; left).
      assert (y ∈ x :: rest1) as Hyin by (rewrite Hperm; left).
      apply elem_of_cons in Hxin as [->|Hxin]; [reflexivity|].
      apply elem_of_cons in Hyin as [->|Hyin]; [reflexivity|].
      specialize (Hx _ Hyin). specialize (Hy _ Hxin).
      unfold strictly_ascending in Hx, Hy. lia. }
    f_equal. apply IH; [exact Hs1 | exact Hs2|].
    eapply Permutation_cons_inv. exact Hperm.
Qed.

(** X11: when no two listed builds share a number, the result of
    [getBuildsForJobId] does not depend on the order in which the base
    factory lists them: two listings of the same records give the same
    sequence. *)
Theorem getBuildsForJobId_order_independent w1 w2 config records1 records2 :
  BaseFactory_list w1 (listConfig_for config) = Resolved records1 ->
  BaseFactory_list w2 (listConfig_for config) = Resolved records2 ->
  Permutation records1 records2 ->
  NoDup (List.map number records1) ->
  snd (getBuildsForJobId w1 config) = snd (getBuildsForJobId w2 config).
Proof.
  intros H1 H2 Hperm Hnodup.
  unfold getBuildsForJobId. rewrite H1, H2. simpl. f_equal.
  pose proof (Array_sort_Permutation by_number records1) as Hp1.
  pose proof (Array_sort_Permutation by_number records2) as Hp2.
  apply strictly_ascending_unique.
  - apply ascending_distinct_strict; [apply sort_by_number_ascending|].
    rewrite <- (Permutation_map number Hp1). exact Hnodup.
  - apply ascending_distinct_strict; [apply sort_by_number_ascending|].
    rewrite <- (Permutation_map number Hp2), <- (Permutation_map number Hperm).
    exact Hnodup.
  - rewrite <- Hp1, <- Hp2. exact Hperm.
Qed.

Lemma getBuildsForJobId_order_independent_witness :
  snd (getBuildsForJobId
         (Sample.listing [Sample.numbered "c" 3; Sample.numbered "a" 1;
                          Sample.numbered "b" 2])
         (Sample.params None))
  = snd (getBuildsForJobId
           (Sample.listing [Sample.numbered "b" 2; Sample.numbered "c" 3;
                            Sample.numbered "a" 1])
           (Sample.params None)).
Proof.
  apply (getBuildsForJobId_order_independent
           (Sample.listing [Sample.numbered "c" 3; Sample.numbered "a" 1;
                            Sample.numbered "b" 2])
           (Sample.listing [Sample.numbered "b" 2; Sample.numbered "c" 3;
                            Sample.numbered "a" 1])
           (Sample.params None) _ _ eq_refl eq_refl).
  - symmetry.
    apply (Permutation_cons_append [Sample.numbered "c" 3; Sample.numbered "a" 1]
             (Sample.numbered "b" 2)).
  - apply (bool_decide_unpack _). vm_compute. exact I.
Defined.
